(** * CloudWatch dashboard generator: discovery, grouping, widget layout

    A shallow embedding of the Lambda handler that discovers tagged
    resources, groups them per cluster and publishes an executive and a
    developer dashboard per cluster, together with the properties of the
    design document that can be checked against it.

    Conventions of the embedding:
    - JavaScript strings are [string]s. The code only searches for ASCII
      markers, splits on [/] and returns suffixes and segments, so reading a
      string as bytes or as UTF-16 code units gives the same results.
    - JavaScript numbers that hold grid coordinates are [Z]; the layout only
      adds small constants to them, far below 2^53.
    - A value that may be [undefined] is an [option]; truthiness of a string
      is non-emptiness.
    - [async] functions run in a state-and-exception monad over a backend
      whose two [send] operations are parameters. *)

From Stdlib Require Import ZArith String Ascii List Lia Sorting.Sorted.
From stdpp Require Import gmap strings list sorting.

Local Open Scope Z_scope.

(** ** JavaScript string primitives used by the handler *)

Module JS.

(** [!!s] for a string: only the empty string is falsy. *)
Definition truthy (s : string) : bool :=
  match s with
  | EmptyString => false
  | String _ _ => true
  end.

(** [v || d] where [v] is a string or [undefined]. *)
Definition or_default (v : option string) (d : string) : string :=
  match v with
  | Some s => if truthy s then s else d
  | None => d
  end.

(** [s.startsWith(pat)]. *)
Fixpoint startsWith (pat s : string) : bool :=
  match pat, s with
  | EmptyString, _ => true
  | String _ _, EmptyString => false
  | String a pat', String b s' => Ascii.eqb a b && startsWith pat' s'
  end.

(** [s.indexOf(pat)], scanning from position [i]; [-1] when absent. *)
Fixpoint indexOf_from (pat s : string) (i : Z) : Z :=
  if startsWith pat s then i
  else match s with
       | EmptyString => -1
       | String _ s' => indexOf_from pat s' (i + 1)
       end.

Definition indexOf (pat s : string) : Z := indexOf_from pat s 0.

(** [s.includes(pat)]. *)
Definition includes (pat s : string) : bool :=
  negb (Z.eqb (indexOf pat s) (-1)).

Fixpoint drop_chars (n : nat) (s : string) : string :=
  match n, s with
  | O, _ => s
  | S _, EmptyString => EmptyString
  | S n', String _ s' => drop_chars n' s'
  end.

(** [s.substring(start)]: a negative start is clamped to 0, a start past
    the end gives the empty string. *)
Definition substring (start : Z) (s : string) : string :=
  drop_chars (Z.to_nat start) s.

(** [s.split(sep)] for a one-character separator. The result always has at
    least one segment. *)
Fixpoint split (sep : ascii) (s : string) : list string :=
  match s with
  | EmptyString => [EmptyString]
  | String c s' =>
      if Ascii.eqb c sep then EmptyString :: split sep s'
      else match split sep s' with
           | seg :: rest => String c seg :: rest
           | [] => [String c EmptyString]
           end
  end.

End JS.

(** ** ARN helpers *)

Definition extractAlbDimension (albArn : string) : string :=
  let idx := JS.indexOf "loadbalancer/" albArn in
  if Z.eqb idx (-1) then albArn
  else JS.substring (idx + Z.of_nat (String.length "loadbalancer/")) albArn.

Definition extractClusterFromServiceArn (serviceArn : string) : string :=
  let parts := JS.split "/"%char serviceArn in
  JS.or_default (parts !! 1%nat) "unknown".

Module SvcRef.
Record t : Type := mk { clusterName : string; serviceName : string }.
End SvcRef.

Definition extractClusterAndService (serviceArn : string) : SvcRef.t :=
  let parts := JS.split "/"%char serviceArn in
  {| SvcRef.clusterName := JS.or_default (parts !! 1%nat) "unknown-cluster";
     SvcRef.serviceName := JS.or_default (parts !! 2%nat) "unknown-service" |}.

(** ** Exceptions and completions *)

Inductive Exception : Type :=
| TypeError (message : string)
| ServiceException (name : string).

(** How a call completes: with a value or with a thrown exception. *)
Inductive Completion (A : Type) : Type :=
| Return (a : A)
| Throw (e : Exception).

Arguments Return {A} a.
Arguments Throw {A} e.

(** ** Data model *)

Module Tag.
Record t : Type := mk { Key : string; Value : string }.
End Tag.

Module ResourceTagMapping.
Record t : Type := mk {
  ResourceARN : option string;
  Tags : option (list Tag.t)
}.
End ResourceTagMapping.

(** The bucket object [{ clusterName, ecsServices, albs }]. *)
Module ClusterGroup.
Record t : Type := mk {
  clusterName : string;
  ecsServices : list string;
  albs : list string
}.
End ClusterGroup.

(** *** The [clusters] object

    [clusters] is a plain object literal [{}] used as a dictionary. Its own
    properties are a finite map, their creation order is kept for
    [Object.keys], and a property read that misses the own properties falls
    through to [Object.prototype]. *)

Module Obj.

Record t : Type := mk {
  own : gmap string ClusterGroup.t;
  order : list string
}.

Definition empty : t := {| own := ∅; order := [] |}.

(** The property names an object literal inherits. *)
Definition prototype_names : list string :=
  [ "constructor"; "__defineGetter__"; "__defineSetter__"; "hasOwnProperty";
    "__lookupGetter__"; "__lookupSetter__"; "isPrototypeOf";
    "propertyIsEnumerable"; "toString"; "valueOf"; "__proto__";
    "toLocaleString" ].

Definition inherited (k : string) : bool :=
  bool_decide (k ∈ prototype_names).

(** What [o[k]] evaluates to. *)
Inductive Slot : Type :=
| Own (g : ClusterGroup.t)
| Inherited
| Undefined.

Definition get (o : t) (k : string) : Slot :=
  match own o !! k with
  | Some g => Own g
  | None => if inherited k then Inherited else Undefined
  end.

(** Every inherited member is a function or an object, hence truthy. *)
Definition slot_truthy (v : Slot) : bool :=
  match v with
  | Own _ | Inherited => true
  | Undefined => false
  end.

(** [o[k] = g] for a name that is not inherited. *)
Definition set (o : t) (k : string) (g : ClusterGroup.t) : t :=
  {| own := <[k := g]> (own o);
     order := match own o !! k with
              | Some _ => order o
              | None => order o ++ [k]
              end |}.

(** In-place mutation of the bucket stored under [k]. *)
Definition mutate (o : t) (k : string) (g : ClusterGroup.t) : t :=
  {| own := <[k := g]> (own o); order := order o |}.

Definition digit (c : ascii) : option N :=
  let n := N_of_ascii c in
  if (48 <=? n)%N && (n <=? 57)%N then Some (n - 48)%N else None.

Fixpoint digits (s : string) (acc : N) : option N :=
  match s with
  | EmptyString => Some acc
  | String c s' =>
      match digit c with
      | Some d => digits s' (10 * acc + d)%N
      | None => None
      end
  end.

(** A property name is an array index when it is the canonical decimal
    form of an integer below 2^32 - 1. *)
Definition array_index (k : string) : option N :=
  match k with
  | EmptyString => None
  | String "0" (String _ _) => None
  | _ =>
      match digits k 0 with
      | Some n => if (n <? 4294967295)%N then Some n else None
      | None => None
      end
  end.

Fixpoint insert_index (e : N * string) (l : list (N * string)) : list (N * string) :=
  match l with
  | [] => [e]
  | e' :: l' => if (fst e <=? fst e')%N then e :: l else e' :: insert_index e l'
  end.

Definition index_keys (ks : list string) : list (N * string) :=
  fold_right insert_index []
    (omap (fun k => (fun n => (n, k)) <$> array_index k) ks).

(** [Object.keys(o)]: array-index names in ascending numeric order, then
    the other names in creation order. *)
Definition keys (o : t) : list string :=
  map snd (index_keys (order o))
  ++ List.filter (fun k => negb (bool_decide (is_Some (array_index k)))) (order o).

End Obj.

(** ** Grouping *)

(** [(tags.find((t) => t.Key === clusterTagKey) || {}).Value || "unknown"] *)
Definition clusterTagValue (tags : list Tag.t) (clusterTagKey : string) : string :=
  JS.or_default
    (Tag.Value <$> List.find (fun t => String.eqb (Tag.Key t) clusterTagKey) tags)
    "unknown".

Definition isEcsService (arn : string) : bool :=
  JS.includes ":ecs:" arn && JS.includes "service/" arn.

Definition isAlb (arn : string) : bool :=
  JS.includes ":elasticloadbalancing:" arn && JS.includes "loadbalancer/" arn.

Definition push_undefined : Exception :=
  TypeError "Cannot read properties of undefined (reading 'push')".

(** One iteration of the [for (const m of mappings)] loop. *)
Definition groupStep (clusterTagKey : string) (clusters : Obj.t)
    (m : ResourceTagMapping.t) : Completion Obj.t :=
  match ResourceTagMapping.ResourceARN m with
  | None => Return clusters
  | Some arn =>
      if negb (JS.truthy arn) then Return clusters
      else
        let tags := default [] (ResourceTagMapping.Tags m) in
        let clusterName := clusterTagValue tags clusterTagKey in
        let clusters :=
          if negb (Obj.slot_truthy (Obj.get clusters clusterName))
          then Obj.set clusters clusterName
                 {| ClusterGroup.clusterName := clusterName;
                    ClusterGroup.ecsServices := [];
                    ClusterGroup.albs := [] |}
          else clusters in
        if isEcsService arn then
          match Obj.get clusters clusterName with
          | Obj.Own g =>
              Return (Obj.mutate clusters clusterName
                        {| ClusterGroup.clusterName := ClusterGroup.clusterName g;
                           ClusterGroup.ecsServices := ClusterGroup.ecsServices g ++ [arn];
                           ClusterGroup.albs := ClusterGroup.albs g |})
          | _ => Throw push_undefined
          end
        else if isAlb arn then
          match Obj.get clusters clusterName with
          | Obj.Own g =>
              Return (Obj.mutate clusters clusterName
                        {| ClusterGroup.clusterName := ClusterGroup.clusterName g;
                           ClusterGroup.ecsServices := ClusterGroup.ecsServices g;
                           ClusterGroup.albs := ClusterGroup.albs g ++ [arn] |})
          | _ => Throw push_undefined
          end
        else Return clusters
  end.

Fixpoint groupLoop (clusterTagKey : string) (clusters : Obj.t)
    (mappings : list ResourceTagMapping.t) : Completion Obj.t :=
  match mappings with
  | [] => Return clusters
  | m :: rest =>
      match groupStep clusterTagKey clusters m with
      | Return clusters' => groupLoop clusterTagKey clusters' rest
      | Throw e => Throw e
      end
  end.

Definition groupByCluster (mappings : list ResourceTagMapping.t)
    (clusterTagKey : string) : Completion Obj.t :=
  groupLoop clusterTagKey Obj.empty mappings.

(** ** Widgets *)

(** An entry of a [metrics] row: a string, an options object
    [{ stat }], or a search expression [{ id, label, expression }]. *)
Inductive MetricField : Type :=
| MStr (s : string)
| MOptions (stat : string)
| MExpression (id label expression : string).

Coercion MStr : string >-> MetricField.

Module Properties.
Record t : Type := mk {
  region : string;
  view : string;
  period : Z;
  stat : option string;
  stacked : option bool;
  title : string;
  metrics : list (list MetricField)
}.
End Properties.

Module Widget.
Record t : Type := mk {
  type : string;
  x : Z;
  y : Z;
  width : Z;
  height : Z;
  properties : Properties.t
}.

(** The grid cell a widget asks for. *)
Definition origin (w : t) : Z * Z := (x w, y w).
End Widget.

(** The cursor of the developer layout together with the array it fills. *)
Module Layout.
Record t : Type := mk {
  widgets : list Widget.t;
  x : Z;
  y : Z;
  col : Z
}.
End Layout.

(** [arr.push(v)] *)
Definition push {A : Type} (arr : list A) (v : A) : list A := arr ++ [v].

Section Builders.

(** [process.env] *)
Variable process_env : gmap string string.

Definition REGION : string :=
  JS.or_default (process_env !! "AWS_REGION") "us-east-1".
Definition CLUSTER_TAG_KEY : string :=
  JS.or_default (process_env !! "CLUSTER_TAG_KEY") "Team".
Definition TAG_VALUE : string :=
  JS.or_default (process_env !! "TAG_VALUE") "NodeJS".
Definition DASHBOARD_EXEC_PREFIX : string :=
  JS.or_default (process_env !! "DASHBOARD_EXEC_PREFIX") "Exec-".
Definition DASHBOARD_DEV_PREFIX : string :=
  JS.or_default (process_env !! "DASHBOARD_DEV_PREFIX") "Dev-".

Definition execTrafficMetrics (albs : list string) : list (list MetricField) :=
  fold_left
    (fun metrics albArn =>
       let lbDim := extractAlbDimension albArn in
       let metrics :=
         push metrics [MStr "AWS/ApplicationELB"; MStr "RequestCount";
                       MStr "LoadBalancer"; MStr lbDim] in
       let metrics :=
         push metrics [MStr "."; MStr "HTTPCode_Target_4XX_Count";
                       MStr "."; MStr "."] in
       push metrics [MStr "."; MStr "HTTPCode_Target_5XX_Count";
                     MStr "."; MStr "."])
    albs [].

Definition latencyMetrics (albs : list string) : list (list MetricField) :=
  fold_left
    (fun metrics albArn =>
       let lbDim := extractAlbDimension albArn in
       push metrics [MStr "AWS/ApplicationELB"; MStr "TargetResponseTime";
                     MStr "LoadBalancer"; MStr lbDim; MOptions "p95"])
    albs [].

Definition buildExecutiveWidgets (resources : ClusterGroup.t) : list Widget.t :=
  let widgets : list Widget.t := [] in
  let y := 0 in
  (* 1) ALB traffic & errors *)
  let '(widgets, y) :=
    if (0 <? length (ClusterGroup.albs resources))%nat then
      let metrics := execTrafficMetrics (ClusterGroup.albs resources) in
      (push widgets
         {| Widget.type := "metric"; Widget.x := 0; Widget.y := y;
            Widget.width := 12; Widget.height := 6;
            Widget.properties :=
              {| Properties.region := REGION;
                 Properties.view := "timeSeries";
                 Properties.period := 60;
                 Properties.stat := Some "Sum";
                 Properties.stacked := Some false;
                 Properties.title :=
                   ClusterGroup.clusterName resources +:+ " – ALB Traffic & Errors";
                 Properties.metrics := metrics |} |},
       y + 6)
    else (widgets, y) in
  (* 2) ALB latency p95 *)
  let '(widgets, y) :=
    if (0 <? length (ClusterGroup.albs resources))%nat then
      let metrics := latencyMetrics (ClusterGroup.albs resources) in
      (push widgets
         {| Widget.type := "metric"; Widget.x := 0; Widget.y := y;
            Widget.width := 12; Widget.height := 6;
            Widget.properties :=
              {| Properties.region := REGION;
                 Properties.view := "timeSeries";
                 Properties.period := 60;
                 Properties.stat := None;
                 Properties.stacked := None;
                 Properties.title :=
                   ClusterGroup.clusterName resources +:+ " – Latency (p95)";
                 Properties.metrics := metrics |} |},
       y + 6)
    else (widgets, y) in
  (* 3) ECS cluster-level CPU/Mem + tasks; [ecsServices[0]] exists exactly
     when the length test of the source succeeds *)
  match ClusterGroup.ecsServices resources with
  | [] => widgets
  | first :: _ =>
      let clusterName := extractClusterFromServiceArn first in
      let metrics :=
        [ [MStr "AWS/ECS"; MStr "CPUUtilization"; MStr "ClusterName"; MStr clusterName];
          [MStr "."; MStr "MemoryUtilization"; MStr "."; MStr "."];
          [MStr "."; MStr "RunningTaskCount"; MStr "."; MStr "."];
          [MStr "."; MStr "DesiredTaskCount"; MStr "."; MStr "."] ] in
      push widgets
        {| Widget.type := "metric"; Widget.x := 0; Widget.y := y;
           Widget.width := 12; Widget.height := 6;
           Widget.properties :=
             {| Properties.region := REGION;
                Properties.view := "timeSeries";
                Properties.period := 60;
                Properties.stat := None;
                Properties.stacked := None;
                Properties.title :=
                  ClusterGroup.clusterName resources +:+ " – ECS Utilization & Tasks";
                Properties.metrics := metrics |} |}
  end.

(** The double-quote character of the search expressions. *)
Definition dquote : string := String "034"%char EmptyString.

Definition searchExpression (metricName clusterName : string) : string :=
  "SEARCH('{AWS/ECS,ClusterName,ServiceName} MetricName=" +:+ dquote
  +:+ metricName +:+ dquote +:+ " ClusterName=" +:+ dquote +:+ clusterName
  +:+ dquote +:+ "', 'Sum', 60)".

Definition buildEcsClusterTasksWidget (clusterName : string) (x y : Z) : Widget.t :=
  {| Widget.type := "metric"; Widget.x := x; Widget.y := y;
     Widget.width := 12; Widget.height := 6;
     Widget.properties :=
       {| Properties.region := REGION;
          Properties.view := "timeSeries";
          Properties.period := 60;
          Properties.stat := Some "Sum";
          Properties.stacked := None;
          Properties.title := clusterName +:+ " – ECS Tasks (Running vs Desired)";
          Properties.metrics :=
            [ [MExpression "run" "Running (sum across services)"
                 (searchExpression "RunningTaskCount" clusterName)];
              [MExpression "des" "Desired (sum across services)"
                 (searchExpression "DesiredTaskCount" clusterName)] ] |} |}.

(** Returns [undefined] (here [None]) when the cluster has no load
    balancer. *)
Definition buildAlbTlsNegotiationErrorsWidget (resources : ClusterGroup.t)
    (x y width height : Z) : option Widget.t :=
  let metrics : list (list MetricField) := [] in
  if (0 <? length (ClusterGroup.albs resources))%nat then
    let metrics :=
      fold_left
        (fun metrics albArn =>
           let lbDim := extractAlbDimension albArn in
           push metrics [MStr "AWS/ApplicationELB";
                         MStr "ClientTLSNegotiationErrorCount";
                         MStr "LoadBalancer"; MStr lbDim])
        (ClusterGroup.albs resources) metrics in
    Some {| Widget.type := "metric"; Widget.x := x; Widget.y := y;
            Widget.width := width; Widget.height := height;
            Widget.properties :=
              {| Properties.region := REGION;
                 Properties.view := "timeSeries";
                 Properties.period := 60;
                 Properties.stat := Some "Sum";
                 Properties.stacked := None;
                 Properties.title := "ALB Client TLS Negotiation Errors";
                 Properties.metrics := metrics |} |}
  else None.

(** The cursor update that closes both per-service loop bodies:
    [widgets.push(w); col++; if (col === 3) { col = 0; x = 0; y += height }
     else { x += width }]. *)
Definition place (width height : Z) (st : Layout.t) (w : Widget.t) : Layout.t :=
  let widgets := push (Layout.widgets st) w in
  let col := Layout.col st + 1 in
  if Z.eqb col 3
  then {| Layout.widgets := widgets; Layout.x := 0;
          Layout.y := Layout.y st + height; Layout.col := 0 |}
  else {| Layout.widgets := widgets; Layout.x := Layout.x st + width;
          Layout.y := Layout.y st; Layout.col := col |}.

Definition serviceWidget (width height : Z) (st : Layout.t)
    (title : string) (metrics : list (list MetricField)) : Widget.t :=
  {| Widget.type := "metric"; Widget.x := Layout.x st; Widget.y := Layout.y st;
     Widget.width := width; Widget.height := height;
     Widget.properties :=
       {| Properties.region := REGION;
          Properties.view := "timeSeries";
          Properties.period := 60;
          Properties.stat := None;
          Properties.stacked := None;
          Properties.title := title;
          Properties.metrics := metrics |} |}.

(** Body of the per-service CPU/Mem loop. *)
Definition cpuMemStep (width height : Z) (st : Layout.t) (svcArn : string) : Layout.t :=
  let cs := extractClusterAndService svcArn in
  let clusterName := SvcRef.clusterName cs in
  let serviceName := SvcRef.serviceName cs in
  let metrics :=
    [ [MStr "AWS/ECS"; MStr "CPUUtilization"; MStr "ClusterName"; MStr clusterName;
       MStr "ServiceName"; MStr serviceName];
      [MStr "."; MStr "MemoryUtilization"; MStr "."; MStr "."; MStr "."; MStr "."] ] in
  place width height st
    (serviceWidget width height st
       ("Service – " +:+ serviceName +:+ " CPU & Memory") metrics).

(** Body of the per-service Tasks loop. *)
Definition tasksStep (width height : Z) (st : Layout.t) (svcArn : string) : Layout.t :=
  let cs := extractClusterAndService svcArn in
  let clusterName := SvcRef.clusterName cs in
  let serviceName := SvcRef.serviceName cs in
  let metrics :=
    [ [MStr "AWS/ECS"; MStr "RunningTaskCount"; MStr "ClusterName"; MStr clusterName;
       MStr "ServiceName"; MStr serviceName];
      [MStr "."; MStr "DesiredTaskCount"; MStr "."; MStr "."; MStr "."; MStr "."] ] in
  place width height st
    (serviceWidget width height st
       ("Service – " +:+ serviceName +:+ " Tasks") metrics).

Definition devAlbMetrics (albs : list string)
  : list (list MetricField) * list (list MetricField) :=
  fold_left
    (fun '(metricsErrors, metricsLatency) albArn =>
       let lbDim := extractAlbDimension albArn in
       let metricsErrors :=
         push metricsErrors [MStr "AWS/ApplicationELB"; MStr "HTTPCode_Target_4XX_Count";
                             MStr "LoadBalancer"; MStr lbDim] in
       let metricsErrors :=
         push metricsErrors [MStr "."; MStr "HTTPCode_Target_5XX_Count";
                             MStr "."; MStr "."] in
       let metricsLatency :=
         push metricsLatency [MStr "AWS/ApplicationELB"; MStr "TargetResponseTime";
                              MStr "LoadBalancer"; MStr lbDim; MOptions "p95"] in
       (metricsErrors, metricsLatency))
    albs ([], []).

Definition buildDeveloperWidgets (resources : ClusterGroup.t) : list Widget.t :=
  let width := 8 in
  let height := 6 in
  let st := {| Layout.widgets := []; Layout.x := 0; Layout.y := 0; Layout.col := 0 |} in
  (* both calls are expression statements: the widgets they return are
     dropped, [widgets] is not touched *)
  let _ := buildAlbTlsNegotiationErrorsWidget resources 0 0 12 6 in
  let _ := buildEcsClusterTasksWidget (ClusterGroup.clusterName resources) 0 6 in
  (* Per-service CPU/Mem (3 per row) *)
  let st := fold_left (cpuMemStep width height) (ClusterGroup.ecsServices resources) st in
  (* Per-service Tasks (next rows) *)
  let st :=
    if (0 <? length (ClusterGroup.ecsServices resources))%nat then
      fold_left (tasksStep width height) (ClusterGroup.ecsServices resources)
        {| Layout.widgets := Layout.widgets st; Layout.x := 0;
           Layout.y := Layout.y st + height; Layout.col := 0 |}
    else st in
  (* ALB errors + latency (dev view) *)
  if (0 <? length (ClusterGroup.albs resources))%nat then
    let '(metricsErrors, metricsLatency) := devAlbMetrics (ClusterGroup.albs resources) in
    let widgets :=
      push (Layout.widgets st)
        {| Widget.type := "metric"; Widget.x := 0; Widget.y := Layout.y st + height;
           Widget.width := 12; Widget.height := 6;
           Widget.properties :=
             {| Properties.region := REGION;
                Properties.view := "timeSeries";
                Properties.period := 60;
                Properties.stat := None;
                Properties.stacked := None;
                Properties.title :=
                  ClusterGroup.clusterName resources +:+ " – ALB Errors";
                Properties.metrics := metricsErrors |} |} in
    push widgets
      {| Widget.type := "metric"; Widget.x := 12; Widget.y := Layout.y st + height;
         Widget.width := 12; Widget.height := 6;
         Widget.properties :=
           {| Properties.region := REGION;
              Properties.view := "timeSeries";
              Properties.period := 60;
              Properties.stat := None;
              Properties.stacked := None;
              Properties.title :=
                ClusterGroup.clusterName resources +:+ " – ALB Latency (p95)";
              Properties.metrics := metricsLatency |} |}
  else Layout.widgets st.

End Builders.

(** ** Clients and the asynchronous runtime *)

Module TagFilter.
Record t : Type := mk { Key : string; Values : list string }.
End TagFilter.

Module GetResourcesCommand.
Record t : Type := mk {
  TagFilters : list TagFilter.t;
  ResourcesPerPage : Z;
  PaginationToken : option string
}.
End GetResourcesCommand.

Module GetResourcesOutput.
Record t : Type := mk {
  ResourceTagMappingList : option (list ResourceTagMapping.t);
  PaginationToken : option string
}.
End GetResourcesOutput.

(** [DashboardBody] is [JSON.stringify({ widgets })]; the embedding keeps
    the document that the string encodes. *)
Module PutDashboardCommand.
Record t : Type := mk {
  DashboardName : string;
  DashboardBody : list Widget.t
}.
End PutDashboardCommand.

(** What the run does to the outside world, in order. *)
Inductive Event : Type :=
| GetResourcesSent (cmd : GetResourcesCommand.t)
| PutDashboardSent (cmd : PutDashboardCommand.t)
| ConsoleLog (line : string).

(** The handler's return value; [body] is
    [JSON.stringify({ clusters: Object.keys(clusters) })], kept as the list
    it encodes. *)
Module Response.
Record t : Type := mk { statusCode : Z; body : list string }.
End Response.

(** [!!token] for the loop test [while (PaginationToken)]. *)
Definition token_truthy (token : option string) : bool :=
  match token with
  | Some s => JS.truthy s
  | None => false
  end.

Section Runtime.

Variable process_env : gmap string string.

(** The two services behind the module-level clients: each [send] answers
    from the service's state and moves it on. *)
Variable Backend : Type.
Variable tagging_send :
  GetResourcesCommand.t -> Backend -> Completion GetResourcesOutput.t * Backend.
Variable cloudwatch_send :
  PutDashboardCommand.t -> Backend -> Completion unit * Backend.

Record World : Type := mkWorld { backend : Backend; trace : list Event }.

(** An [async] computation; [None] means the fuel given to a loop inside
    it did not suffice. *)
Definition Async (A : Type) : Type := World -> option (Completion A * World).

Definition aret {A : Type} (a : A) : Async A :=
  fun w => Some (Return a, w).

Definition athrow {A : Type} (e : Exception) : Async A :=
  fun w => Some (Throw e, w).

(** [await c] followed by [k]: an exception of [c] skips [k]. *)
Definition abind {A B : Type} (c : Async A) (k : A -> Async B) : Async B :=
  fun w =>
    match c w with
    | Some (Return a, w') => k a w'
    | Some (Throw e, w') => Some (Throw e, w')
    | None => None
    end.

Definition emit (ev : Event) : Async unit :=
  fun w => Some (Return tt, {| backend := backend w; trace := trace w ++ [ev] |}).

Definition taggingClient_send (cmd : GetResourcesCommand.t)
  : Async GetResourcesOutput.t :=
  fun w =>
    let '(r, b) := tagging_send cmd (backend w) in
    Some (r, {| backend := b; trace := trace w ++ [GetResourcesSent cmd] |}).

Definition cloudwatchClient_send (cmd : PutDashboardCommand.t) : Async unit :=
  fun w =>
    let '(r, b) := cloudwatch_send cmd (backend w) in
    Some (r, {| backend := b; trace := trace w ++ [PutDashboardSent cmd] |}).

Definition console_log (line : string) : Async unit := emit (ConsoleLog line).

(** Lifting of a synchronous call that may throw. *)
Definition sync {A : Type} (c : Completion A) : Async A :=
  fun w => Some (c, w).

#[local] Instance async_ret : MRet Async := @aret.
#[local] Instance async_bind : MBind Async := fun A B k c => abind c k.

(** The [do { ... } while (PaginationToken)] loop, one iteration per unit
    of fuel. *)
Fixpoint listLoop (fuel : nat) (tagKey tagValue : string)
    (out : list ResourceTagMapping.t) (PaginationToken : option string)
  : Async (list ResourceTagMapping.t) :=
  match fuel with
  | O => fun _ => None
  | S fuel' =>
      resp ← taggingClient_send
               {| GetResourcesCommand.TagFilters :=
                    [ {| TagFilter.Key := tagKey; TagFilter.Values := [tagValue] |} ];
                  GetResourcesCommand.ResourcesPerPage := 50;
                  GetResourcesCommand.PaginationToken := PaginationToken |};
      let out :=
        match GetResourcesOutput.ResourceTagMappingList resp with
        | Some page => out ++ page
        | None => out
        end in
      let PaginationToken := GetResourcesOutput.PaginationToken resp in
      if token_truthy PaginationToken
      then listLoop fuel' tagKey tagValue out PaginationToken
      else aret out
  end.

Definition listTaggedResources (fuel : nat) (tagKey tagValue : string)
  : Async (list ResourceTagMapping.t) :=
  listLoop fuel tagKey tagValue [] None.

Definition putDashboard (name : string) (widgets : list Widget.t) : Async unit :=
  let body := widgets in
  cloudwatchClient_send
    {| PutDashboardCommand.DashboardName := name;
       PutDashboardCommand.DashboardBody := body |};;
  console_log ("Updated dashboard: " +:+ name).

(** Body of [for (const clusterName of Object.keys(clusters))]. *)
Definition clusterStep (clusters : Obj.t) (clusterName : string) : Async unit :=
  match Obj.get clusters clusterName with
  | Obj.Own resources =>
      let execWidgets := buildExecutiveWidgets process_env resources in
      let devWidgets := buildDeveloperWidgets process_env resources in
      putDashboard (DASHBOARD_EXEC_PREFIX process_env +:+ clusterName) execWidgets;;
      putDashboard (DASHBOARD_DEV_PREFIX process_env +:+ clusterName) devWidgets;;
      console_log ("Dashboards updated for cluster: " +:+ clusterName)
  | _ =>
      (* not reached for a name out of [Object.keys]: the builders would
         read [.albs] of a value that is no bucket *)
      athrow (TypeError "Cannot read properties of undefined (reading 'albs')")
  end.

Fixpoint clusterLoop (clusters : Obj.t) (names : list string) : Async unit :=
  match names with
  | [] => aret tt
  | clusterName :: rest =>
      clusterStep clusters clusterName;; clusterLoop clusters rest
  end.

Definition handler (fuel : nat) : Async Response.t :=
  mappings ← listTaggedResources fuel
               (CLUSTER_TAG_KEY process_env) (TAG_VALUE process_env);
  clusters ← sync (groupByCluster mappings (CLUSTER_TAG_KEY process_env));
  clusterLoop clusters (Obj.keys clusters);;
  aret {| Response.statusCode := 200; Response.body := Obj.keys clusters |}.

End Runtime.

Arguments mkWorld {Backend} backend trace.
Arguments backend {Backend} w.
Arguments trace {Backend} w.

(** ** Vocabulary of the statements *)

(** [pat] occurs in [s]. *)
Definition occurs (pat s : string) : Prop :=
  ∃ pre post, s = pre +:+ pat +:+ post.

(** [s] splits as [pre], [pat], [post] at the leftmost occurrence of
    [pat]. *)
Definition first_occurrence (pat s pre post : string) : Prop :=
  s = pre +:+ pat +:+ post ∧
  ∀ pre' post', s = pre' +:+ pat +:+ post' →
    (String.length pre ≤ String.length pre')%nat.

(** Row-major order of grid cells: [p] comes before [q]. Cells are
    [(x, y)] pairs. *)
Definition before (p q : Z * Z) : Prop :=
  p.2 < q.2 ∨ (p.2 = q.2 ∧ p.1 < q.1).

(** The developer cursor has moved past every widget placed so far, and
    those were placed in row-major order. *)
Definition cursor_ahead (st : Layout.t) : Prop :=
  StronglySorted before (map Widget.origin (Layout.widgets st)) ∧
  Forall (fun p => before p (Layout.x st, Layout.y st))
         (map Widget.origin (Layout.widgets st)).

Definition no_stat (w : Widget.t) : Prop :=
  Properties.stat (Widget.properties w) = None.

(** The view of a widget used in the worked examples: title, origin and
    size. *)
Definition placement (w : Widget.t) : string * (Z * Z) * (Z * Z) :=
  (Properties.title (Widget.properties w), Widget.origin w,
   (Widget.width w, Widget.height w)).

Definition alb_web : string :=
  "arn:aws:elasticloadbalancing:us-east-1:1:loadbalancer/app/web/abc".
Definition svc_api : string := "arn:aws:ecs:us-east-1:1:service/prod/api".

Definition scenarioB : list ResourceTagMapping.t :=
  [ {| ResourceTagMapping.ResourceARN := Some svc_api;
       ResourceTagMapping.Tags := Some [ {| Tag.Key := "Cluster"; Tag.Value := "prod" |} ] |};
    {| ResourceTagMapping.ResourceARN := Some alb_web;
       ResourceTagMapping.Tags :=
         Some [ {| Tag.Key := "Team"; Tag.Value := "NodeJS" |};
                {| Tag.Key := "Cluster"; Tag.Value := "prod" |} ] |} ].





(** *** Grouping, stated on the input list *)

(** The ARN of a mapping that the loop does not skip. *)
Definition arnOf (m : ResourceTagMapping.t) : option string :=
  match ResourceTagMapping.ResourceARN m with
  | Some arn => if JS.truthy arn then Some arn else None
  | None => None
  end.

(** The cluster name the loop computes for a mapping. *)
Definition clusterOf (clusterTagKey : string) (m : ResourceTagMapping.t) : string :=
  clusterTagValue (default [] (ResourceTagMapping.Tags m)) clusterTagKey.

(** The ARNs of the mappings of cluster [name], in input order. *)
Definition members (clusterTagKey name : string)
    (ms : list ResourceTagMapping.t) : list string :=
  omap (fun m =>
          match arnOf m with
          | Some arn =>
              if String.eqb (clusterOf clusterTagKey m) name then Some arn else None
          | None => None
          end) ms.

Definition isAlbOnly (arn : string) : bool :=
  negb (isEcsService arn) && isAlb arn.

(** The bucket expected under [name] after grouping [ms]. *)
Definition expected_bucket (clusterTagKey name : string)
    (ms : list ResourceTagMapping.t) : option ClusterGroup.t :=
  if Obj.inherited name then None
  else match members clusterTagKey name ms with
       | [] => None
       | arns =>
           Some {| ClusterGroup.clusterName := name;
                   ClusterGroup.ecsServices := List.filter isEcsService arns;
                   ClusterGroup.albs := List.filter isAlbOnly arns |}
       end.

(** Some service or load balancer carries a cluster name that collides
    with an inherited property of the [clusters] object. *)
Definition poisoned (clusterTagKey : string)
    (ms : list ResourceTagMapping.t) : Prop :=
  ∃ m arn, m ∈ ms ∧ arnOf m = Some arn ∧
           Obj.inherited (clusterOf clusterTagKey m) = true ∧
           (isEcsService arn || isAlb arn) = true.

(** The [clusters] object holds exactly the buckets expected for [ms]. *)
Definition tracks (clusterTagKey : string) (clusters : Obj.t)
    (ms : list ResourceTagMapping.t) : Prop :=
  ∀ name, Obj.own clusters !! name = expected_bucket clusterTagKey name ms.

(** The mapping makes the loop throw: it is a service or a load balancer
    whose cluster name is an inherited property name. *)
Definition poisons (clusterTagKey : string) (m : ResourceTagMapping.t) : Prop :=
  ∃ arn, arnOf m = Some arn ∧
         Obj.inherited (clusterOf clusterTagKey m) = true ∧
         (isEcsService arn || isAlb arn) = true.

(** The creation order lists exactly the own property names. *)
Definition order_ok (o : Obj.t) : Prop :=
  ∀ k, k ∈ Obj.order o ↔ is_Some (Obj.own o !! k).

(** *** Worked inputs *)

(** A service whose cluster tag is present with an empty value. *)
Definition emptyTagged : ResourceTagMapping.t :=
  {| ResourceTagMapping.ResourceARN := Some svc_api;
     ResourceTagMapping.Tags := Some [ {| Tag.Key := "Cluster"; Tag.Value := "" |} ] |}.

Definition groupedEmptyTagged : Obj.t :=
  {| Obj.own :=
       {[ "unknown" := {| ClusterGroup.clusterName := "unknown";
                          ClusterGroup.ecsServices := [svc_api];
                          ClusterGroup.albs := [] |} ]};
     Obj.order := ["unknown"] |}.

(** An identifier that carries the markers of both kinds. *)
Definition bothMarkers : string :=
  "arn:aws:ecs:elasticloadbalancing:1:service/loadbalancer/x".

Definition bothTagged : ResourceTagMapping.t :=
  {| ResourceTagMapping.ResourceARN := Some bothMarkers;
     ResourceTagMapping.Tags := Some [ {| Tag.Key := "Cluster"; Tag.Value := "prod" |} ] |}.

Definition groupedBothTagged : Obj.t :=
  {| Obj.own :=
       {[ "prod" := {| ClusterGroup.clusterName := "prod";
                       ClusterGroup.ecsServices := [bothMarkers];
                       ClusterGroup.albs := [] |} ]};
     Obj.order := ["prod"] |}.

(** *** Discovery, stated on the pages the service answers with *)

(** The command sent for a page. *)
Definition pageRequest (tagKey tagValue : string) (token : option string)
  : GetResourcesCommand.t :=
  {| GetResourcesCommand.TagFilters :=
       [ {| TagFilter.Key := tagKey; TagFilter.Values := [tagValue] |} ];
     GetResourcesCommand.ResourcesPerPage := 50;
     GetResourcesCommand.PaginationToken := token |}.

(** The commands that fetch [pages] one after the other: each page is asked
    for with the token the page before it carried, the first with
    [token]. *)
Fixpoint requestsFor (tagKey tagValue : string) (token : option string)
    (pages : list GetResourcesOutput.t) : list GetResourcesCommand.t :=
  match pages with
  | [] => []
  | page :: rest =>
      pageRequest tagKey tagValue token
      :: requestsFor tagKey tagValue (GetResourcesOutput.PaginationToken page) rest
  end.

(** The mappings a page contributes; a page without a list contributes
    none. *)
Definition mappingsOf (page : GetResourcesOutput.t) : list ResourceTagMapping.t :=
  default [] (GetResourcesOutput.ResourceTagMappingList page).

Section Pages.

Context {Backend : Type}.
Variable tagging_send :
  GetResourcesCommand.t -> Backend -> Completion GetResourcesOutput.t * Backend.

(** Starting in state [b] and asked with [token], the service answers with
    [pages] and ends in state [b']: every page but the last carries a
    token, the last carries none (absent, or the empty string, which the
    loop test treats alike). *)
Inductive answers (tagKey tagValue : string)
  : option string -> Backend -> list GetResourcesOutput.t -> Backend -> Prop :=
| answers_last token b page b' :
    tagging_send (pageRequest tagKey tagValue token) b = (Return page, b') ->
    token_truthy (GetResourcesOutput.PaginationToken page) = false ->
    answers tagKey tagValue token b [page] b'
| answers_more token b page b' rest b'' :
    tagging_send (pageRequest tagKey tagValue token) b = (Return page, b') ->
    token_truthy (GetResourcesOutput.PaginationToken page) = true ->
    answers tagKey tagValue (GetResourcesOutput.PaginationToken page) b' rest b'' ->
    answers tagKey tagValue token b (page :: rest) b''.

End Pages.

(** The names of the dashboards a trace shows as sent, in order. *)
Definition dashboardsSent (tr : list Event) : list string :=
  omap (fun ev =>
          match ev with
          | PutDashboardSent cmd => Some (PutDashboardCommand.DashboardName cmd)
          | _ => None
          end) tr.

(** The two dashboards of a cluster, in the order they are published. *)
Definition dashboardsOf (env : gmap string string) (clusterName : string)
  : list string :=
  [ DASHBOARD_EXEC_PREFIX env +:+ clusterName;
    DASHBOARD_DEV_PREFIX env +:+ clusterName ].

(** *** Stub services for the worked runs *)

Definition teamTagged (arn team : string) : ResourceTagMapping.t :=
  {| ResourceTagMapping.ResourceARN := Some arn;
     ResourceTagMapping.Tags := Some [ {| Tag.Key := "Team"; Tag.Value := team |} ] |}.

(** A tagging service that answers in three pages; the middle page holds
    no mapping. *)
Definition threePages (cmd : GetResourcesCommand.t) (b : unit)
  : Completion GetResourcesOutput.t * unit :=
  match GetResourcesCommand.PaginationToken cmd with
  | None =>
      (Return {| GetResourcesOutput.ResourceTagMappingList :=
                   Some [teamTagged svc_api "NodeJS"];
                 GetResourcesOutput.PaginationToken := Some "t1" |}, b)
  | Some t =>
      if String.eqb t "t1" then
        (Return {| GetResourcesOutput.ResourceTagMappingList := Some [];
                   GetResourcesOutput.PaginationToken := Some "t2" |}, b)
      else if String.eqb t "t2" then
        (Return {| GetResourcesOutput.ResourceTagMappingList :=
                     Some [teamTagged alb_web "NodeJS"];
                   GetResourcesOutput.PaginationToken := None |}, b)
      else (Throw (ServiceException "PaginationTokenExpiredException"), b)
  end.

(** A tagging service that answers in one page with a service of team [a]
    and a load balancer of team [b]. *)
Definition twoTeams (cmd : GetResourcesCommand.t) (b : unit)
  : Completion GetResourcesOutput.t * unit :=
  (Return {| GetResourcesOutput.ResourceTagMappingList :=
               Some [teamTagged svc_api "a"; teamTagged alb_web "b"];
             GetResourcesOutput.PaginationToken := None |}, b).

(** A dashboard service that rejects the executive dashboard of team [a]
    and accepts every other dashboard. *)
Definition rejectExecA (cmd : PutDashboardCommand.t) (b : unit)
  : Completion unit * unit :=
  if String.eqb (PutDashboardCommand.DashboardName cmd) "Exec-a"
  then (Throw (ServiceException "InternalServiceFault"), b)
  else (Return tt, b).

Definition groupedTwoTeams : Obj.t :=
  {| Obj.own :=
       {[ "a" := {| ClusterGroup.clusterName := "a";
                    ClusterGroup.ecsServices := [svc_api];
                    ClusterGroup.albs := [] |};
          "b" := {| ClusterGroup.clusterName := "b";
                    ClusterGroup.ecsServices := [];
                    ClusterGroup.albs := [alb_web] |} ]};
     Obj.order := ["a"; "b"] |}.

(** The world after discovery against [twoTeams]. *)
Definition discoveredWorld : World unit :=
  mkWorld tt [GetResourcesSent (pageRequest "Team" "NodeJS" None)].

(** The world in which [rejectExecA] has just rejected the executive
    dashboard of team [a]. *)
Definition rejectedWorld : World unit :=
  mkWorld tt
    [ GetResourcesSent (pageRequest "Team" "NodeJS" None);
      PutDashboardSent
        {| PutDashboardCommand.DashboardName := "Exec-a";
           PutDashboardCommand.DashboardBody :=
             buildExecutiveWidgets ∅
               {| ClusterGroup.clusterName := "a";
                  ClusterGroup.ecsServices := [svc_api];
                  ClusterGroup.albs := [] |} |} ].

(** ** Further vocabulary *)

(** The string holds no [/]. *)
Fixpoint no_slash (s : string) : bool :=
  match s with
  | EmptyString => true
  | String c s' => negb (Ascii.eqb c "/") && no_slash s'
  end.

(** The loop does not skip the mapping: its ARN is present and
    non-empty. *)
Definition kept (m : ResourceTagMapping.t) : bool :=
  match arnOf m with
  | Some _ => true
  | None => false
  end.

(** The cluster name under which a mapping makes the loop create a
    bucket, if it does. *)
Definition bucketName (clusterTagKey : string) (m : ResourceTagMapping.t)
  : option string :=
  if kept m && negb (Obj.inherited (clusterOf clusterTagKey m))
  then Some (clusterOf clusterTagKey m)
  else None.

(** Keeps the first occurrence of every name. *)
Fixpoint dedup (l : list string) : list string :=
  match l with
  | [] => []
  | k :: l' => k :: List.filter (fun k' => negb (String.eqb k' k)) (dedup l')
  end.

(** *** Widgets as rectangles *)

(** Position and size of a widget: [(x, y, width, height)]. *)
Definition rect (w : Widget.t) : Z * Z * Z * Z :=
  (Widget.x w, Widget.y w, Widget.width w, Widget.height w).

(** Two widgets cover a common grid cell. *)
Definition overlap (a b : Widget.t) : Prop :=
  Widget.x a < Widget.x b + Widget.width b ∧
  Widget.x b < Widget.x a + Widget.width a ∧
  Widget.y a < Widget.y b + Widget.height b ∧
  Widget.y b < Widget.y a + Widget.height a.

(** [a] lies in a row above [b], or in the same row to its left. *)
Definition row_clear (a b : Widget.t) : Prop :=
  Widget.y a + Widget.height a ≤ Widget.y b ∨
  (Widget.y a = Widget.y b ∧ Widget.x a + Widget.width a ≤ Widget.x b).

(** The cursor [(cx, cy)] of a block of rows of height [height] is past the
    widget. *)
Definition cursor_past (height cx cy : Z) (w : Widget.t) : Prop :=
  Widget.y w + Widget.height w ≤ cy ∨
  (Widget.y w = cy ∧ Widget.height w = height ∧
   Widget.x w + Widget.width w ≤ cx).

Definition cursor_clear (height : Z) (st : Layout.t) : Prop :=
  StronglySorted row_clear (Layout.widgets st) ∧
  Forall (cursor_past height (Layout.x st) (Layout.y st)) (Layout.widgets st).

(** The rows the three load-balancer queries of the executive traffic
    widget take for one load balancer. *)
Definition trafficRows (albArn : string) : list (list MetricField) :=
  [ [MStr "AWS/ApplicationELB"; MStr "RequestCount"; MStr "LoadBalancer";
     MStr (extractAlbDimension albArn)];
    [MStr "."; MStr "HTTPCode_Target_4XX_Count"; MStr "."; MStr "."];
    [MStr "."; MStr "HTTPCode_Target_5XX_Count"; MStr "."; MStr "."] ].

Definition latencyRow (albArn : string) : list MetricField :=
  [MStr "AWS/ApplicationELB"; MStr "TargetResponseTime"; MStr "LoadBalancer";
   MStr (extractAlbDimension albArn); MOptions "p95"].

Definition errorRows (albArn : string) : list (list MetricField) :=
  [ [MStr "AWS/ApplicationELB"; MStr "HTTPCode_Target_4XX_Count";
     MStr "LoadBalancer"; MStr (extractAlbDimension albArn)];
    [MStr "."; MStr "HTTPCode_Target_5XX_Count"; MStr "."; MStr "."] ].

Definition tlsRow (albArn : string) : list MetricField :=
  [MStr "AWS/ApplicationELB"; MStr "ClientTLSNegotiationErrorCount";
   MStr "LoadBalancer"; MStr (extractAlbDimension albArn)].

(** *** The developer layout in closed form *)

Section ClosedForm.

Variable env : gmap string string.

(** The widget of the given title and queries, 8 wide and 6 tall, at
    [(x, y)]. *)
Definition cellWidget (title : string) (metrics : list (list MetricField))
    (x y : Z) : Widget.t :=
  {| Widget.type := "metric"; Widget.x := x; Widget.y := y;
     Widget.width := 8; Widget.height := 6;
     Widget.properties :=
       {| Properties.region := REGION env;
          Properties.view := "timeSeries";
          Properties.period := 60;
          Properties.stat := None;
          Properties.stacked := None;
          Properties.title := title;
          Properties.metrics := metrics |} |}.

Definition cpuMemWidgetAt (svcArn : string) (x y : Z) : Widget.t :=
  let cs := extractClusterAndService svcArn in
  cellWidget
    ("Service – " +:+ SvcRef.serviceName cs +:+ " CPU & Memory")
    [ [MStr "AWS/ECS"; MStr "CPUUtilization";
       MStr "ClusterName"; MStr (SvcRef.clusterName cs);
       MStr "ServiceName"; MStr (SvcRef.serviceName cs)];
      [MStr "."; MStr "MemoryUtilization"; MStr "."; MStr "."; MStr "."; MStr "."] ]
    x y.

Definition tasksWidgetAt (svcArn : string) (x y : Z) : Widget.t :=
  let cs := extractClusterAndService svcArn in
  cellWidget
    ("Service – " +:+ SvcRef.serviceName cs +:+ " Tasks")
    [ [MStr "AWS/ECS"; MStr "RunningTaskCount";
       MStr "ClusterName"; MStr (SvcRef.clusterName cs);
       MStr "ServiceName"; MStr (SvcRef.serviceName cs)];
      [MStr "."; MStr "DesiredTaskCount"; MStr "."; MStr "."; MStr "."; MStr "."] ]
    x y.

(** A block of cells, three per row, whose first row is at [y0]: the cell
    number [k] is in column [k mod 3] of row [k / 3]. [k] is the number of
    the first cell of [l]. *)
Fixpoint cells (cell : string -> Z -> Z -> Widget.t) (y0 : Z) (k : nat)
    (l : list string) : list Widget.t :=
  match l with
  | [] => []
  | a :: l' =>
      cell a (8 * (Z.of_nat k mod 3)) (y0 + 6 * (Z.of_nat k / 3))
      :: cells cell y0 (S k) l'
  end.

(** The trailing pair of load-balancer widgets in row [y]. *)
Definition albPairAt (resources : ClusterGroup.t) (y : Z) : list Widget.t :=
  [ {| Widget.type := "metric"; Widget.x := 0; Widget.y := y;
       Widget.width := 12; Widget.height := 6;
       Widget.properties :=
         {| Properties.region := REGION env;
            Properties.view := "timeSeries";
            Properties.period := 60;
            Properties.stat := None;
            Properties.stacked := None;
            Properties.title :=
              ClusterGroup.clusterName resources +:+ " – ALB Errors";
            Properties.metrics :=
              flat_map errorRows (ClusterGroup.albs resources) |} |};
    {| Widget.type := "metric"; Widget.x := 12; Widget.y := y;
       Widget.width := 12; Widget.height := 6;
       Widget.properties :=
         {| Properties.region := REGION env;
            Properties.view := "timeSeries";
            Properties.period := 60;
            Properties.stat := None;
            Properties.stacked := None;
            Properties.title :=
              ClusterGroup.clusterName resources +:+ " – ALB Latency (p95)";
            Properties.metrics :=
              map latencyRow (ClusterGroup.albs resources) |} |} ].

(** What the developer builder returns, written without a cursor: the
    CPU/Memory block from row 0, the Tasks block one row below the row the
    first block's cursor ends in, and the load-balancer pair one row below
    the last cursor row. *)
Definition developerLayout (resources : ClusterGroup.t) : list Widget.t :=
  let services := ClusterGroup.ecsServices resources in
  let n := Z.of_nat (length services) in
  let tasksRow := 6 * (n / 3) + 6 in
  let albRow := if Z.eqb n 0 then 6 else tasksRow + 6 * (n / 3) + 6 in
  cells cpuMemWidgetAt 0 0 services
  ++ cells tasksWidgetAt tasksRow 0 services
  ++ match ClusterGroup.albs resources with
     | [] => []
     | _ :: _ => albPairAt resources albRow
     end.

End ClosedForm.

(** The cursor of a block that starts in row [y0] after [k] cells. *)
Definition cursor_at (y0 : Z) (k : nat) (st : Layout.t) : Prop :=
  Layout.col st = Z.of_nat k mod 3 ∧
  Layout.x st = 8 * (Z.of_nat k mod 3) ∧
  Layout.y st = y0 + 6 * (Z.of_nat k / 3).

(** No two widgets of the list cover a common grid cell. *)
Definition disjoint_layout (ws : list Widget.t) : Prop :=
  ∀ (i j : nat) (a b : Widget.t),
    i ≠ j → ws !! i = Some a → ws !! j = Some b → ¬ overlap a b.

(** The widget lies inside the 24 columns of the dashboard grid. *)
Definition in_grid (w : Widget.t) : Prop :=
  0 ≤ Widget.x w ∧ 0 ≤ Widget.y w ∧ Widget.x w + Widget.width w ≤ 24.

(** What every widget is stamped with. *)
Definition stamped (env : gmap string string) (w : Widget.t) : Prop :=
  Widget.type w = "metric" ∧
  Properties.region (Widget.properties w) = REGION env ∧
  Properties.view (Widget.properties w) = "timeSeries" ∧
  Properties.period (Widget.properties w) = 60.

(** *** Runs of the handler *)

(** The dashboard commands a trace shows as sent, in order. *)
Definition putCommands (tr : list Event) : list PutDashboardCommand.t :=
  omap (fun ev =>
          match ev with
          | PutDashboardSent cmd => Some cmd
          | _ => None
          end) tr.

(** The two commands that publish the dashboards of cluster [k]: the
    executive one, then the developer one, each with the widgets the
    builder returns for the cluster's bucket. *)
Definition publishCommands (env : gmap string string) (clusters : Obj.t)
    (k : string) : list PutDashboardCommand.t :=
  match Obj.get clusters k with
  | Obj.Own resources =>
      [ {| PutDashboardCommand.DashboardName := DASHBOARD_EXEC_PREFIX env +:+ k;
           PutDashboardCommand.DashboardBody := buildExecutiveWidgets env resources |};
        {| PutDashboardCommand.DashboardName := DASHBOARD_DEV_PREFIX env +:+ k;
           PutDashboardCommand.DashboardBody := buildDeveloperWidgets env resources |} ]
  | _ => []
  end.

Section MorePages.

Context {Backend : Type}.
Variable tagging_send :
  GetResourcesCommand.t -> Backend -> Completion GetResourcesOutput.t * Backend.

(** Starting in state [b] and asked with [token], the service answers with
    [pages], every one of which carries a token; the last token is [token']
    and the service is left in state [b']. *)
Inductive follows (tagKey tagValue : string)
  : option string -> Backend -> list GetResourcesOutput.t ->
    option string -> Backend -> Prop :=
| follows_nil token b : follows tagKey tagValue token b [] token b
| follows_cons token b page b' rest token' b'' :
    tagging_send (pageRequest tagKey tagValue token) b = (Return page, b') ->
    token_truthy (GetResourcesOutput.PaginationToken page) = true ->
    follows tagKey tagValue (GetResourcesOutput.PaginationToken page) b'
      rest token' b'' ->
    follows tagKey tagValue token b (page :: rest) token' b''.

End MorePages.

(** A tagging service that fails on the second page. *)
Definition failsOnSecondPage (cmd : GetResourcesCommand.t) (b : unit)
  : Completion GetResourcesOutput.t * unit :=
  match GetResourcesCommand.PaginationToken cmd with
  | None =>
      (Return {| GetResourcesOutput.ResourceTagMappingList :=
                   Some [teamTagged svc_api "NodeJS"];
                 GetResourcesOutput.PaginationToken := Some "t1" |}, b)
  | Some _ => (Throw (ServiceException "ThrottledException"), b)
  end.

(** A tagging service whose every page carries a token. *)
Definition endlessPages (cmd : GetResourcesCommand.t) (b : unit)
  : Completion GetResourcesOutput.t * unit :=
  (Return {| GetResourcesOutput.ResourceTagMappingList := Some [];
             GetResourcesOutput.PaginationToken := Some "more" |}, b).

(** A dashboard service that accepts everything. *)
Definition acceptAll (cmd : PutDashboardCommand.t) (b : unit)
  : Completion unit * unit :=
  (Return tt, b).

(** A tagging service that answers with one service whose team is named
    like an inherited property. *)
Definition poisonedTeam (cmd : GetResourcesCommand.t) (b : unit)
  : Completion GetResourcesOutput.t * unit :=
  (Return {| GetResourcesOutput.ResourceTagMappingList :=
               Some [teamTagged alb_web "web"; teamTagged svc_api "toString"];
             GetResourcesOutput.PaginationToken := None |}, b).

(** The cluster name the tags of a mapping resolve to: the value of the
    first tag whose key is the cluster tag key, and [unknown] when the
    mapping has no tag list, no such tag, or an empty value there. *)
Definition resolvedCluster (clusterTagKey : string) (m : ResourceTagMapping.t)
  : string :=
  match ResourceTagMapping.Tags m with
  | Some tags =>
      match List.find (fun t => String.eqb (Tag.Key t) clusterTagKey) tags with
      | Some t => if JS.truthy (Tag.Value t) then Tag.Value t else "unknown"
      | None => "unknown"
      end
  | None => "unknown"
  end.

(** A tagging service that honours the default filter: every resource it
    returns carries the tag Team=NodeJS. *)
Definition honestPages (cmd : GetResourcesCommand.t) (b : unit)
  : Completion GetResourcesOutput.t * unit :=
  (Return {| GetResourcesOutput.ResourceTagMappingList :=
               Some [teamTagged svc_api "NodeJS"; teamTagged alb_web "NodeJS"];
             GetResourcesOutput.PaginationToken := None |}, b).

Definition groupedNodeJS : Obj.t :=
  {| Obj.own :=
       {[ "NodeJS" := {| ClusterGroup.clusterName := "NodeJS";
                         ClusterGroup.ecsServices := [svc_api];
                         ClusterGroup.albs := [alb_web] |} ]};
     Obj.order := ["NodeJS"] |}.

(** The metric rows of a widget. *)
Definition metricsOf (w : Widget.t) : list (list MetricField) :=
  Properties.metrics (Widget.properties w).
(** * Properties *)

(** ** Worked evaluations of the model *)

Example extractAlbDimension_alb_web :
  extractAlbDimension alb_web = "app/web/abc".
Proof. reflexivity. Qed.

Example extractClusterAndService_svc_api :
  extractClusterAndService svc_api
  = {| SvcRef.clusterName := "prod"; SvcRef.serviceName := "api" |}.
Proof. reflexivity. Qed.

Example split_keeps_empty_segments :
  JS.split "/" "a//b/" = ["a"; ""; "b"; ""].
Proof. reflexivity. Qed.

(** An empty 2nd segment is falsy, so the sentinel applies as well. *)
Example extractClusterFromServiceArn_empty_segment :
  extractClusterFromServiceArn "arn:aws:ecs:us-east-1:1:service//api" = "unknown".
Proof. reflexivity. Qed.

Example keys_puts_array_indices_first :
  Obj.keys {| Obj.own := ∅;
              Obj.order := ["b"; "10"; "a"; "2"; "01"; "4294967295"; "0"] |}
  = ["0"; "2"; "10"; "b"; "a"; "01"; "4294967295"].
Proof. reflexivity. Qed.

(** A service whose cluster tag names an inherited property makes the
    grouping throw. *)
Example groupByCluster_inherited_name :
  groupByCluster
    [ {| ResourceTagMapping.ResourceARN := Some svc_api;
         ResourceTagMapping.Tags :=
           Some [ {| Tag.Key := "Cluster"; Tag.Value := "toString" |} ] |} ]
    "Cluster"
  = Throw push_undefined.
Proof. reflexivity. Qed.

(** Scenario A: one load balancer, no service; the executive builder
    returns the traffic and the latency widget. *)
Example scenarioA_executive_widgets :
  map placement
    (buildExecutiveWidgets ∅
       {| ClusterGroup.clusterName := "prod";
          ClusterGroup.ecsServices := [];
          ClusterGroup.albs := [alb_web] |})
  = [ ("prod – ALB Traffic & Errors", (0, 0), (12, 6));
      ("prod – Latency (p95)", (0, 6), (12, 6)) ].
Proof. reflexivity. Qed.

(** ** Strings *)

Lemma string_app_nil_l (s : string) : "" +:+ s = s.
Proof. reflexivity. Qed.

Lemma string_app_cons (c : ascii) (a b : string) :
  String c a +:+ b = String c (a +:+ b).
Proof. reflexivity. Qed.

Lemma string_app_assoc (a b c : string) : (a +:+ b) +:+ c = a +:+ b +:+ c.
Proof.
  induction a as [|ch a IH]; [done |]. by rewrite !string_app_cons, IH.
Qed.

Lemma startsWith_spec (pat s : string) :
  JS.startsWith pat s = true ↔ ∃ post, s = pat +:+ post.
Proof.
  revert s. induction pat as [|a pat IH]; intros s; simpl.
  - split; [intros _; by exists s | done].
  - destruct s as [|b s].
    + split; [done | intros [post H]; discriminate H].
    + rewrite andb_true_iff, Ascii.eqb_eq, IH. split.
      * intros [-> [post ->]]. by exists post.
      * intros [post H]. rewrite string_app_cons in H. injection H as -> ->.
        split; [done | by exists post].
Qed.

Lemma startsWith_occurs (pat s : string) :
  JS.startsWith pat s = true → occurs pat s.
Proof.
  intros [post ->]%startsWith_spec. by exists EmptyString, post.
Qed.

Lemma occurs_tail (pat s : string) (c : ascii) :
  occurs pat s → occurs pat (String c s).
Proof. intros (pre & post & ->). by exists (String c pre), post. Qed.

Lemma indexOf_from_absent (pat s : string) (i : Z) :
  ¬ occurs pat s → JS.indexOf_from pat s i = -1.
Proof.
  revert i. induction s as [|c s IH]; intros i Hno; simpl.
  - destruct (JS.startsWith pat "") eqn:E; [| done].
    destruct Hno. by apply startsWith_occurs.
  - destruct (JS.startsWith pat (String c s)) eqn:E.
    + destruct Hno. by apply startsWith_occurs.
    + apply IH. intros H. apply Hno. by apply occurs_tail.
Qed.

Lemma indexOf_from_unfold (pat s : string) (i : Z) :
  JS.indexOf_from pat s i =
  if JS.startsWith pat s then i
  else match s with
       | EmptyString => -1
       | String _ s' => JS.indexOf_from pat s' (i + 1)
       end.
Proof. by destruct s. Qed.

Lemma indexOf_from_first (pat pre post : string) (i : Z) :
  first_occurrence pat (pre +:+ pat +:+ post) pre post →
  JS.indexOf_from pat (pre +:+ pat +:+ post) i = i + Z.of_nat (String.length pre).
Proof.
  revert i. induction pre as [|c pre IH]; intros i [_ Hmin].
  - rewrite string_app_nil_l, indexOf_from_unfold.
    assert (JS.startsWith pat (pat +:+ post) = true) as ->
      by (apply startsWith_spec; by exists post).
    simpl. lia.
  - assert (JS.startsWith pat (String c pre +:+ pat +:+ post) = false) as E.
    { destruct (JS.startsWith pat _) eqn:E; [| done].
      apply startsWith_spec in E as [post' E].
      specialize (Hmin EmptyString post' E). simpl in Hmin. lia. }
    rewrite indexOf_from_unfold, E, string_app_cons, IH.
    + simpl String.length. lia.
    + split; [done |]. intros pre' post' H.
      specialize (Hmin (String c pre') post'). rewrite !string_app_cons, H in Hmin.
      specialize (Hmin eq_refl). simpl in Hmin. lia.
Qed.

Lemma drop_chars_app (a b : string) :
  JS.drop_chars (String.length a) (a +:+ b) = b.
Proof.
  induction a as [|c a IH]; [by destruct b |]. by rewrite string_app_cons.
Qed.

Lemma length_app_string (a b : string) :
  String.length (a +:+ b) = (String.length a + String.length b)%nat.
Proof.
  induction a as [|c a IH]; [done |]. rewrite string_app_cons. simpl. by rewrite IH.
Qed.

(** A string in which [pat] occurs splits at a leftmost occurrence. *)
Lemma occurs_first_occurrence (pat s : string) :
  occurs pat s → ∃ pre post, first_occurrence pat s pre post.
Proof.
  induction s as [|c s IH]; intros Hocc.
  - destruct Hocc as (pre & post & E). exists pre, post. split; [done |].
    destruct pre; [simpl; lia | discriminate E].
  - destruct (JS.startsWith pat (String c s)) eqn:Est.
    + apply startsWith_spec in Est as [post E]. exists EmptyString, post.
      split; [done | simpl; lia].
    + assert (occurs pat s) as Hs.
      { destruct Hocc as (pre & post & E). destruct pre as [|c' pre].
        - rewrite string_app_nil_l in E.
          assert (JS.startsWith pat (String c s) = true) as Habs
            by (apply startsWith_spec; by exists post).
          by rewrite Est in Habs.
        - rewrite string_app_cons in E. injection E as _ E. by exists pre, post. }
      destruct (IH Hs) as (pre & post & -> & Hmin).
      exists (String c pre), post. split; [done |].
      intros pre' post' E. destruct pre' as [|c' pre'].
      * rewrite string_app_nil_l in E.
        assert (JS.startsWith pat (String c (pre +:+ pat +:+ post)) = true)
          as Habs by (apply startsWith_spec; by exists post').
        by rewrite Est in Habs.
      * rewrite !string_app_cons in E. injection E as _ E.
        specialize (Hmin pre' post' E). simpl. lia.
Qed.

(** ** ARN helpers *)

(** C7. If the identifier contains the marker [loadbalancer/],
    [extractAlbDimension] returns exactly what follows the leftmost
    occurrence of the marker; if the marker does not occur, it returns the
    identifier unchanged. The function is total, so it never fails. *)
Theorem extractAlbDimension_spec (s : string) :
  (occurs "loadbalancer/" s →
     ∃ pre post, first_occurrence "loadbalancer/" s pre post ∧
                 extractAlbDimension s = post) ∧
  (∀ pre post, first_occurrence "loadbalancer/" s pre post →
     extractAlbDimension s = post) ∧
  (¬ occurs "loadbalancer/" s → extractAlbDimension s = s).
Proof.
  assert (∀ pre post, first_occurrence "loadbalancer/" s pre post →
            extractAlbDimension s = post) as Hfound.
  { intros pre post Hfirst. pose proof Hfirst as [-> _].
    unfold extractAlbDimension, JS.indexOf.
    rewrite (indexOf_from_first _ _ _ 0 Hfirst).
    destruct (Z.eqb_spec (0 + Z.of_nat (String.length pre)) (-1)) as [E|_]; [lia |].
    unfold JS.substring.
    replace (Z.to_nat _) with (String.length (pre +:+ "loadbalancer/")).
    - rewrite <- string_app_assoc. apply drop_chars_app.
    - rewrite length_app_string. simpl String.length. lia. }
  split_and!.
  - intros Hocc.
    destruct (occurs_first_occurrence _ _ Hocc) as (pre & post & Hfirst).
    exists pre, post. split; [done | by apply (Hfound pre)].
  - done.
  - intros Hno. unfold extractAlbDimension, JS.indexOf.
    by rewrite indexOf_from_absent.
Qed.

Lemma indexOf_from_bounds (pat pre post : string) (i : Z) :
  i ≤ JS.indexOf_from pat (pre +:+ pat +:+ post) i ≤ i + Z.of_nat (String.length pre).
Proof.
  revert i. induction pre as [|c pre IH]; intros i; rewrite indexOf_from_unfold.
  - rewrite string_app_nil_l.
    assert (JS.startsWith pat (pat +:+ post) = true) as ->
      by (apply startsWith_spec; by exists post).
    simpl. lia.
  - destruct (JS.startsWith pat _).
    + simpl. lia.
    + rewrite string_app_cons. specialize (IH (i + 1)). simpl String.length. lia.
Qed.

(** A position computed by [indexOf] is the leftmost one. *)
Lemma indexOf_first_occurrence (pat pre post : string) :
  JS.indexOf pat (pre +:+ pat +:+ post) = Z.of_nat (String.length pre) →
  first_occurrence pat (pre +:+ pat +:+ post) pre post.
Proof.
  intros Hidx. split; [done |]. intros pre' post' E.
  pose proof (indexOf_from_bounds pat pre' post' 0) as Hb.
  rewrite <- E in Hb. unfold JS.indexOf in Hidx. lia.
Qed.

Lemma indexOf_absent_not_occurs (pat s : string) :
  JS.indexOf pat s = -1 → ¬ occurs pat s.
Proof.
  intros Hidx (pre & post & ->).
  pose proof (indexOf_from_bounds pat pre post 0). unfold JS.indexOf in Hidx. lia.
Qed.

Lemma extractAlbDimension_spec_witness :
  extractAlbDimension alb_web = "app/web/abc" ∧
  extractAlbDimension "prod-cluster" = "prod-cluster".
Proof.
  split.
  - apply (proj1 (proj2 (extractAlbDimension_spec alb_web))
             "arn:aws:elasticloadbalancing:us-east-1:1:" "app/web/abc").
    apply (indexOf_first_occurrence "loadbalancer/"
             "arn:aws:elasticloadbalancing:us-east-1:1:" "app/web/abc").
    reflexivity.
  - apply (proj2 (proj2 (extractAlbDimension_spec "prod-cluster"))).
    apply indexOf_absent_not_occurs. reflexivity.
Defined.

(** ** Layout *)



Lemma before_irrefl (p : Z * Z) : ¬ before p p.
Proof. unfold before. lia. Qed.

Lemma sorted_before_NoDup (l : list (Z * Z)) :
  StronglySorted before l → NoDup l.
Proof.
  induction 1 as [|p l _ IH Hall]; constructor; [| done].
  intros Hin. rewrite Forall_forall in Hall.
  by apply (before_irrefl p), Hall.
Qed.

Lemma sorted_snoc (l : list (Z * Z)) (p : Z * Z) :
  StronglySorted before l → Forall (fun q => before q p) l →
  StronglySorted before (l ++ [p]).
Proof.
  intros Hl Hp. apply StronglySorted_app. split_and!; [| done | repeat constructor].
  intros q1 q2 Hq1 ->%list_elem_of_singleton.
  rewrite Forall_forall in Hp. by apply Hp.
Qed.

Lemma place_ahead (width height : Z) (st : Layout.t) (w : Widget.t) :
  0 < width → 0 < height →
  Widget.origin w = (Layout.x st, Layout.y st) →
  cursor_ahead st → cursor_ahead (place width height st w).
Proof.
  intros Hw Hh Hori [Hsorted Hahead]. unfold place, push.
  assert (StronglySorted before
            (map Widget.origin (Layout.widgets st ++ [w]))) as Hs.
  { rewrite map_app. simpl. rewrite Hori. by apply sorted_snoc. }
  destruct (Layout.col st + 1 =? 3); split; simpl; try done.
  - rewrite map_app, Forall_app. split.
    + eapply Forall_impl; [exact Hahead |].
      intros [px py]. unfold before. simpl. lia.
    + simpl. rewrite Hori. apply Forall_singleton. unfold before. simpl. lia.
  - rewrite map_app, Forall_app. split.
    + eapply Forall_impl; [exact Hahead |].
      intros [px py]. unfold before. simpl. lia.
    + simpl. rewrite Hori. apply Forall_singleton. unfold before. simpl. lia.
Qed.

Lemma cpuMemStep_ahead env (st : Layout.t) (svcArn : string) :
  cursor_ahead st → cursor_ahead (cpuMemStep env 8 6 st svcArn).
Proof. intros H. unfold cpuMemStep. by apply place_ahead. Qed.

Lemma tasksStep_ahead env (st : Layout.t) (svcArn : string) :
  cursor_ahead st → cursor_ahead (tasksStep env 8 6 st svcArn).
Proof. intros H. unfold tasksStep. by apply place_ahead. Qed.

Lemma fold_ahead (step : Layout.t → string → Layout.t) (l : list string) :
  (∀ st a, cursor_ahead st → cursor_ahead (step st a)) →
  ∀ st, cursor_ahead st → cursor_ahead (fold_left step l st).
Proof.
  intros Hstep. induction l as [|a l IH]; intros st Hst; simpl; [done |].
  by apply IH, Hstep.
Qed.

(** Starting a new block one row further down keeps the cursor ahead. *)
Lemma next_block_ahead (st : Layout.t) (height : Z) :
  0 < height → cursor_ahead st →
  cursor_ahead {| Layout.widgets := Layout.widgets st; Layout.x := 0;
                  Layout.y := Layout.y st + height; Layout.col := 0 |}.
Proof.
  intros Hh [Hsorted Hahead]. split; simpl; [done |].
  eapply Forall_impl; [exact Hahead |].
  intros [px py]. unfold before. simpl. lia.
Qed.

Lemma executive_origins env (resources : ClusterGroup.t) :
  map Widget.origin (buildExecutiveWidgets env resources) =
  match ClusterGroup.albs resources, ClusterGroup.ecsServices resources with
  | [], [] => []
  | [], _ :: _ => [(0, 0)]
  | _ :: _, [] => [(0, 0); (0, 6)]
  | _ :: _, _ :: _ => [(0, 0); (0, 6); (0, 12)]
  end.
Proof.
  unfold buildExecutiveWidgets, push.
  by destruct (ClusterGroup.albs resources), (ClusterGroup.ecsServices resources).
Qed.

(** C4. Whatever the load-balancer and service lists of the cluster are,
    empty ones included, no two widgets returned by the executive builder
    ask for the same (x, y) origin, and no two widgets returned by the
    developer builder do. *)
Theorem builders_origins_distinct env (resources : ClusterGroup.t) :
  NoDup (map Widget.origin (buildExecutiveWidgets env resources)) ∧
  NoDup (map Widget.origin (buildDeveloperWidgets env resources)).
Proof.
  split.
  - rewrite executive_origins.
    destruct (ClusterGroup.albs resources), (ClusterGroup.ecsServices resources);
      apply (bool_decide_unpack _); vm_compute; exact I.
  - apply sorted_before_NoDup. unfold buildDeveloperWidgets.
    set (st0 := {| Layout.widgets := []; Layout.x := 0; Layout.y := 0;
                   Layout.col := 0 |}).
    assert (cursor_ahead st0) as H0 by (split; constructor).
    set (st1 := fold_left (cpuMemStep env 8 6) _ st0).
    assert (cursor_ahead st1) as H1
      by (apply fold_ahead; [apply cpuMemStep_ahead | done]).
    set (st2 := if (0 <? length (ClusterGroup.ecsServices resources))%nat
                then _ else st1).
    assert (cursor_ahead st2) as [Hsorted Hahead].
    { subst st2. destruct (0 <? length _)%nat; [| done].
      apply fold_ahead; [apply tasksStep_ahead |].
      by apply next_block_ahead. }
    destruct (0 <? length (ClusterGroup.albs resources))%nat; [| done].
    destruct (devAlbMetrics _) as [metricsErrors metricsLatency].
    unfold push. rewrite !map_app. simpl.
    apply sorted_snoc.
    + apply sorted_snoc; [done |].
      eapply Forall_impl; [exact Hahead |].
      intros [px py]. unfold before. simpl. lia.
    + rewrite Forall_app. split.
      * eapply Forall_impl; [exact Hahead |].
        intros [px py]. unfold before. simpl. lia.
      * apply Forall_singleton. unfold before. simpl. lia.
Qed.

(** ** What the developer builder returns *)


Lemma place_no_stat (width height : Z) (st : Layout.t) (w : Widget.t) :
  no_stat w → Forall no_stat (Layout.widgets st) →
  Forall no_stat (Layout.widgets (place width height st w)).
Proof.
  intros Hw Hst. unfold place, push.
  destruct (Layout.col st + 1 =? 3); simpl;
    (apply Forall_app; split; [done | by apply Forall_singleton]).
Qed.

Lemma fold_no_stat (step : Layout.t → string → Layout.t) (l : list string) :
  (∀ st a, Forall no_stat (Layout.widgets st) →
           Forall no_stat (Layout.widgets (step st a))) →
  ∀ st, Forall no_stat (Layout.widgets st) →
        Forall no_stat (Layout.widgets (fold_left step l st)).
Proof.
  intros Hstep. induction l as [|a l IH]; intros st Hst; simpl; [done |].
  by apply IH, Hstep.
Qed.

(** Every widget the developer builder returns is one of the per-service
    or trailing load-balancer widgets, none of which sets [stat]. *)
Lemma developer_widgets_no_stat env (resources : ClusterGroup.t) :
  Forall no_stat (buildDeveloperWidgets env resources).
Proof.
  unfold buildDeveloperWidgets.
  set (st0 := {| Layout.widgets := []; Layout.x := 0; Layout.y := 0;
                 Layout.col := 0 |}).
  set (st1 := fold_left (cpuMemStep env 8 6) _ st0).
  assert (Forall no_stat (Layout.widgets st1)) as H1.
  { apply fold_no_stat; [| constructor].
    intros st a H. unfold cpuMemStep. by apply place_no_stat. }
  set (st2 := if (0 <? length (ClusterGroup.ecsServices resources))%nat
              then _ else st1).
  assert (Forall no_stat (Layout.widgets st2)) as H2.
  { subst st2. destruct (0 <? length _)%nat; [| done].
    apply fold_no_stat; [| done].
    intros st a H. unfold tasksStep. by apply place_no_stat. }
  destruct (0 <? length (ClusterGroup.albs resources))%nat; [| done].
  destruct (devAlbMetrics _) as [metricsErrors metricsLatency].
  unfold push. rewrite !Forall_app. split_and!; [done | |];
    by apply Forall_singleton.
Qed.

(** C1 (the code departs from it). The developer builder builds the TLS
    negotiation-error widget and the aggregate running-vs-desired tasks
    widget and then drops both: neither is among the widgets it returns,
    for any cluster. *)
Theorem developer_widgets_omit_tls_and_tasks env (resources : ClusterGroup.t) :
  (buildEcsClusterTasksWidget env (ClusterGroup.clusterName resources) 0 6
     ∉ buildDeveloperWidgets env resources) ∧
  match buildAlbTlsNegotiationErrorsWidget env resources 0 0 12 6 with
  | Some tls => tls ∉ buildDeveloperWidgets env resources
  | None => ClusterGroup.albs resources = []
  end.
Proof.
  pose proof (developer_widgets_no_stat env resources) as Hall.
  rewrite Forall_forall in Hall. split.
  - intros Hin. by specialize (Hall _ Hin).
  - unfold buildAlbTlsNegotiationErrorsWidget.
    destruct (ClusterGroup.albs resources) as [|a l] eqn:E; simpl; [done |].
    intros Hin. by specialize (Hall _ Hin).
Qed.



(** A cluster with one load balancer and no service: the returned sequence
    starts with the trailing load-balancer pair. *)
Example developer_widgets_one_alb :
  map placement
    (buildDeveloperWidgets ∅
       {| ClusterGroup.clusterName := "prod";
          ClusterGroup.ecsServices := [];
          ClusterGroup.albs := [alb_web] |}) =
  [ ("prod – ALB Errors", (0, 6), (12, 6));
    ("prod – ALB Latency (p95)", (12, 6), (12, 6)) ].
Proof. reflexivity. Qed.


(** C2 (the code departs from it). For the service and the load balancer of
    scenario B, both tagged Cluster=prod, grouping gives the single cluster
    [prod], and the developer builder returns 4 widgets for it, not 6: the
    TLS and the aggregate-tasks widgets are missing, and the per-service
    block starts at row 0. *)
Theorem scenarioB_developer_widgets :
  ∃ clusters resources,
    groupByCluster scenarioB "Cluster" = Return clusters ∧
    Obj.keys clusters = ["prod"] ∧
    Obj.get clusters "prod" = Obj.Own resources ∧
    resources = {| ClusterGroup.clusterName := "prod";
                   ClusterGroup.ecsServices := [svc_api];
                   ClusterGroup.albs := [alb_web] |} ∧
    map placement (buildDeveloperWidgets ∅ resources) =
    [ ("Service – api CPU & Memory", (0, 0), (8, 6));
      ("Service – api Tasks", (0, 6), (8, 6));
      ("prod – ALB Errors", (0, 12), (12, 6));
      ("prod – ALB Latency (p95)", (12, 12), (12, 6)) ].
Proof.
  eexists _, _. split_and!; [vm_compute; reflexivity | reflexivity..].
Qed.

(** ** Cluster-name sentinels *)

Lemma place_widgets (width height : Z) (st : Layout.t) (w : Widget.t) :
  Layout.widgets (place width height st w) = Layout.widgets st ++ [w].
Proof. unfold place, push. by destruct (Layout.col st + 1 =? 3). Qed.












(** ** Grouping *)

Lemma groupLoop_snoc key (c : Obj.t) (ms : list ResourceTagMapping.t)
    (m : ResourceTagMapping.t) :
  groupLoop key c (ms ++ [m]) =
  match groupLoop key c ms with
  | Return c' => groupStep key c' m
  | Throw e => Throw e
  end.
Proof.
  revert c. induction ms as [|m0 ms IH]; intros c; simpl.
  - by destruct (groupStep key c m).
  - destruct (groupStep key c m0); [apply IH | done].
Qed.

Lemma members_snoc key name (ms : list ResourceTagMapping.t)
    (m : ResourceTagMapping.t) :
  members key name (ms ++ [m]) =
  members key name ms ++
  match arnOf m with
  | Some arn => if String.eqb (clusterOf key m) name then [arn] else []
  | None => []
  end.
Proof.
  unfold members. rewrite omap_app. f_equal. simpl.
  destruct (arnOf m); [| done]. by destruct (String.eqb _ _).
Qed.

Lemma poisoned_snoc key (ms : list ResourceTagMapping.t)
    (m : ResourceTagMapping.t) :
  poisoned key (ms ++ [m]) ↔
  poisoned key ms ∨
  ∃ arn, arnOf m = Some arn ∧ Obj.inherited (clusterOf key m) = true ∧
         (isEcsService arn || isAlb arn) = true.
Proof.
  unfold poisoned. split.
  - intros (m' & arn & [Hin | ->%list_elem_of_singleton]%elem_of_app & H); eauto 6.
  - intros [(m' & arn & Hin & H) | (arn & H)].
    + exists m', arn. split; [apply elem_of_app; by left | done].
    + exists m, arn. split; [apply elem_of_app; right; by apply list_elem_of_singleton | done].
Qed.

(** The cluster name is never the empty string. *)
Lemma clusterTagValue_truthy (tags : list Tag.t) (key : string) :
  JS.truthy (clusterTagValue tags key) = true.
Proof.
  unfold clusterTagValue, JS.or_default.
  destruct (Tag.Value <$> _) as [v|]; [| done].
  by destruct (JS.truthy v) eqn:E.
Qed.

Lemma expected_skip key name (ms : list ResourceTagMapping.t)
    (m : ResourceTagMapping.t) :
  arnOf m = None ∨ clusterOf key m ≠ name →
  expected_bucket key name (ms ++ [m]) = expected_bucket key name ms.
Proof.
  intros H. unfold expected_bucket. rewrite members_snoc.
  destruct (arnOf m) as [arn|]; [| by rewrite app_nil_r].
  destruct (String.eqb_spec (clusterOf key m) name) as [E|_];
    [| by rewrite app_nil_r].
  by destruct H.
Qed.

Lemma expected_add key (ms : list ResourceTagMapping.t)
    (m : ResourceTagMapping.t) (arn : string) :
  arnOf m = Some arn →
  Obj.inherited (clusterOf key m) = false →
  expected_bucket key (clusterOf key m) (ms ++ [m]) =
  Some {| ClusterGroup.clusterName := clusterOf key m;
          ClusterGroup.ecsServices :=
            List.filter isEcsService (members key (clusterOf key m) ms)
            ++ List.filter isEcsService [arn];
          ClusterGroup.albs :=
            List.filter isAlbOnly (members key (clusterOf key m) ms)
            ++ List.filter isAlbOnly [arn] |}.
Proof.
  intros Harn Hinh. unfold expected_bucket. rewrite Hinh, members_snoc, Harn.
  rewrite String.eqb_refl, <- !List.filter_app.
  by destruct (members key (clusterOf key m) ms).
Qed.

(** After the lazy creation step the bucket of the mapping's cluster
    exists and holds what was grouped so far; other names are untouched. *)
Lemma ensure_bucket key (c : Obj.t) (ms : list ResourceTagMapping.t)
    (cn : string) :
  Obj.inherited cn = false → tracks key c ms →
  let c1 :=
    if negb (Obj.slot_truthy (Obj.get c cn))
    then Obj.set c cn {| ClusterGroup.clusterName := cn;
                         ClusterGroup.ecsServices := [];
                         ClusterGroup.albs := [] |}
    else c in
  Obj.own c1 !! cn =
    Some {| ClusterGroup.clusterName := cn;
            ClusterGroup.ecsServices := List.filter isEcsService (members key cn ms);
            ClusterGroup.albs := List.filter isAlbOnly (members key cn ms) |} ∧
  ∀ name, name ≠ cn → Obj.own c1 !! name = Obj.own c !! name.
Proof.
  intros Hinh Htr. pose proof (Htr cn) as Hcn.
  unfold expected_bucket in Hcn. rewrite Hinh in Hcn.
  unfold Obj.get. rewrite Hcn, Hinh.
  destruct (members key cn ms) as [|a l]; simpl.
  - split; [apply lookup_insert_eq |].
    intros name Hne. by apply lookup_insert_ne.
  - by rewrite Hcn.
Qed.

Lemma groupStep_spec key (c : Obj.t) (ms : list ResourceTagMapping.t)
    (m : ResourceTagMapping.t) :
  tracks key c ms →
  match groupStep key c m with
  | Return c' => tracks key c' (ms ++ [m]) ∧ ¬ poisons key m
  | Throw e => e = push_undefined ∧ poisons key m
  end.
Proof.
  intros Htr. unfold groupStep, poisons.
  destruct (arnOf m) as [arn|] eqn:Harn; unfold arnOf in Harn;
    destruct (ResourceTagMapping.ResourceARN m) as [arn'|] eqn:Ea;
    try destruct (JS.truthy arn') eqn:Et; simplify_eq/=.
  2,3: split; [| by intros (? & ? & _)];
       intros name; rewrite expected_skip; [done | left];
       unfold arnOf; by rewrite Ea, ?Et.
  assert (arnOf m = Some arn) as Harn by (unfold arnOf; by rewrite Ea, Et).
  fold (clusterOf key m). set (cn := clusterOf key m).
  destruct (Obj.inherited cn) eqn:Hinh.
  - (* the name is inherited: no bucket is created *)
    pose proof (Htr cn) as Hcn. unfold expected_bucket in Hcn.
    rewrite Hinh in Hcn.
    assert (Obj.get c cn = Obj.Inherited) as Hget
      by (unfold Obj.get; by rewrite Hcn, Hinh).
    rewrite Hget. simpl. rewrite Hget.
    destruct (isEcsService arn) eqn:Es;
      [split; [done | exists arn; by rewrite Es] |].
    destruct (isAlb arn) eqn:Eb;
      [split; [done | exists arn; by rewrite Es, Eb] |].
    split.
    + intros name. destruct (decide (name = cn)) as [-> | Hne].
      * rewrite Hcn. unfold expected_bucket. by rewrite Hinh.
      * rewrite expected_skip; [done | by right].
    + intros (arn0 & ? & _ & H). simplify_eq. by rewrite Es, Eb in H.
  - destruct (ensure_bucket key c ms cn Hinh Htr) as [Hown Hother].
    set (c1 := if negb (Obj.slot_truthy (Obj.get c cn)) then _ else c) in *.
    assert (Obj.get c1 cn = Obj.Own
              {| ClusterGroup.clusterName := cn;
                 ClusterGroup.ecsServices :=
                   List.filter isEcsService (members key cn ms);
                 ClusterGroup.albs := List.filter isAlbOnly (members key cn ms) |})
      as Hget by (unfold Obj.get; by rewrite Hown).
    rewrite Hget.
    pose proof (expected_add key ms m arn Harn Hinh) as Hadd. fold cn in Hadd.
    assert (∀ c2 : Obj.t,
              (∀ name, name ≠ cn → Obj.own c2 !! name = Obj.own c !! name) →
              Obj.own c2 !! cn = expected_bucket key cn (ms ++ [m]) →
              tracks key c2 (ms ++ [m])) as Hfinish.
    { intros c2 H2 Hcn name. destruct (decide (name = cn)) as [-> | Hne]; [done |].
      rewrite H2, expected_skip by done || by right. apply Htr. }
    destruct (isEcsService arn) eqn:Es; [| destruct (isAlb arn) eqn:Eb].
    + split; [| by intros (? & _ & ? & _)]. apply Hfinish.
      * intros name Hne. simpl. rewrite lookup_insert_ne by done. by apply Hother.
      * assert (isAlbOnly arn = false) as Eo by (unfold isAlbOnly; by rewrite Es).
        simpl. rewrite lookup_insert_eq, Hadd. simpl. rewrite Es, Eo.
        by rewrite app_nil_r.
    + split; [| by intros (? & _ & ? & _)]. apply Hfinish.
      * intros name Hne. simpl. rewrite lookup_insert_ne by done. by apply Hother.
      * assert (isAlbOnly arn = true) as Eo by (unfold isAlbOnly; by rewrite Es, Eb).
        simpl. rewrite lookup_insert_eq, Hadd. simpl. rewrite Es, Eo.
        by rewrite app_nil_r.
    + split; [| by intros (? & _ & ? & _)]. apply Hfinish; [done |].
      assert (isAlbOnly arn = false) as Eo by (unfold isAlbOnly; by rewrite Es, Eb).
      rewrite Hown, Hadd. simpl. rewrite Es, Eo. by rewrite !app_nil_r.
Qed.

(** Grouping either throws, exactly when the input is poisoned, or returns
    an object that holds the expected bucket under every name. *)
Lemma groupByCluster_spec (ms : list ResourceTagMapping.t) key :
  match groupByCluster ms key with
  | Return c => tracks key c ms ∧ ¬ poisoned key ms
  | Throw e => e = push_undefined ∧ poisoned key ms
  end.
Proof.
  unfold groupByCluster. induction ms as [|m ms IH] using rev_ind.
  - simpl. split.
    + intros name. unfold expected_bucket. simpl.
      rewrite lookup_empty. by destruct (Obj.inherited name).
    + intros (m & arn & Hin & _). by apply elem_of_nil in Hin.
  - rewrite groupLoop_snoc.
    destruct (groupLoop key Obj.empty ms) as [c|e].
    + destruct IH as [Htr Hnp].
      pose proof (groupStep_spec key c ms m Htr) as Hstep.
      destruct (groupStep key c m) as [c'|e'].
      * destruct Hstep as [Htr' Hnp']. split; [done |].
        by intros [? | ?]%poisoned_snoc.
      * destruct Hstep as [-> Hp]. split; [done |].
        apply poisoned_snoc. by right.
    + destruct IH as [-> Hp]. split; [done |]. apply poisoned_snoc. by left.
Qed.

Lemma elem_of_filter_bool {A : Type} (f : A → bool) (l : list A) (a : A) :
  a ∈ List.filter f l ↔ a ∈ l ∧ f a = true.
Proof. rewrite !list_elem_of_In. apply filter_In. Qed.

(** *** [Object.keys] enumerates the own names *)

Lemma elem_of_insert_index (e e' : N * string) (l : list (N * string)) :
  e' ∈ Obj.insert_index e l ↔ e' = e ∨ e' ∈ l.
Proof.
  induction l as [|a l IH]; simpl.
  - rewrite list_elem_of_singleton, elem_of_nil. tauto.
  - destruct (fst e <=? fst a)%N.
    + apply elem_of_cons.
    + rewrite !elem_of_cons, IH. tauto.
Qed.

Lemma elem_of_index_keys (ks : list string) (n : N) (k : string) :
  (n, k) ∈ Obj.index_keys ks ↔ k ∈ ks ∧ Obj.array_index k = Some n.
Proof.
  unfold Obj.index_keys. induction ks as [|k0 ks IH]; simpl.
  - rewrite !elem_of_nil. tauto.
  - destruct (Obj.array_index k0) as [n0|] eqn:E; simpl.
    + rewrite elem_of_insert_index, IH, elem_of_cons. split.
      * intros [[= -> ->] | [? ?]]; auto.
      * intros [[-> | ?] ?]; [left; congruence | right; auto].
    + rewrite IH, elem_of_cons. split.
      * intros [? ?]; auto.
      * intros [[-> | ?] ?]; [congruence | auto].
Qed.

Lemma elem_of_map {A B : Type} (f : A → B) (l : list A) (b : B) :
  b ∈ map f l ↔ ∃ a, f a = b ∧ a ∈ l.
Proof.
  rewrite list_elem_of_In, in_map_iff.
  split; intros (a & ? & ?); exists a; split; try done; by apply list_elem_of_In.
Qed.

Lemma elem_of_keys (o : Obj.t) (k : string) :
  k ∈ Obj.keys o ↔ k ∈ Obj.order o.
Proof.
  unfold Obj.keys. rewrite elem_of_app, elem_of_filter_bool, elem_of_map. split.
  - intros [([n k'] & Hk & Hin) | [Hin _]]; [| done]. simpl in Hk. subst k'.
    by apply elem_of_index_keys in Hin as [? _].
  - intros Hin. destruct (Obj.array_index k) as [n|] eqn:E.
    + left. exists (n, k). split; [done |]. by apply elem_of_index_keys.
    + right. split; [done |].
      rewrite bool_decide_eq_false_2; [done |]. by intros [? ?].
Qed.

Lemma set_order_ok (o : Obj.t) (k : string) (g : ClusterGroup.t) :
  order_ok o → order_ok (Obj.set o k g).
Proof.
  intros Hok k'. unfold Obj.set. simpl.
  destruct (decide (k' = k)) as [-> | Hne].
  - rewrite lookup_insert_eq. split; [by eauto |]. intros _.
    destruct (Obj.own o !! k) eqn:E.
    + apply Hok. by rewrite E.
    + apply elem_of_app. right. by apply list_elem_of_singleton.
  - rewrite lookup_insert_ne by done. rewrite <- (Hok k').
    destruct (Obj.own o !! k); [done |].
    rewrite elem_of_app, list_elem_of_singleton. tauto.
Qed.

Lemma mutate_order_ok (o : Obj.t) (k : string) (g : ClusterGroup.t) :
  is_Some (Obj.own o !! k) → order_ok o → order_ok (Obj.mutate o k g).
Proof.
  intros Hk Hok k'. unfold Obj.mutate. simpl.
  destruct (decide (k' = k)) as [-> | Hne].
  - rewrite lookup_insert_eq. split; [by eauto | intros _; by apply Hok].
  - rewrite lookup_insert_ne by done. apply Hok.
Qed.

Lemma get_Own (o : Obj.t) (k : string) (g : ClusterGroup.t) :
  Obj.get o k = Obj.Own g → is_Some (Obj.own o !! k).
Proof.
  unfold Obj.get. destruct (Obj.own o !! k); [by eauto |].
  by destruct (Obj.inherited k).
Qed.

Lemma groupStep_order_ok key (c c' : Obj.t) (m : ResourceTagMapping.t) :
  order_ok c → groupStep key c m = Return c' → order_ok c'.
Proof.
  intros Hok. unfold groupStep.
  destruct (ResourceTagMapping.ResourceARN m) as [arn|]; [| by intros [= <-]].
  destruct (negb (JS.truthy arn)); [by intros [= <-] |].
  set (cn := clusterTagValue _ key).
  set (c1 := if negb (Obj.slot_truthy (Obj.get c cn)) then _ else c).
  assert (order_ok c1) as Hok1.
  { subst c1. destruct (negb _); [by apply set_order_ok | done]. }
  destruct (isEcsService arn); [| destruct (isAlb arn)].
  - destruct (Obj.get c1 cn) as [g| |] eqn:E; intros [= <-].
    apply mutate_order_ok; [by eapply get_Own | done].
  - destruct (Obj.get c1 cn) as [g| |] eqn:E; intros [= <-].
    apply mutate_order_ok; [by eapply get_Own | done].
  - by intros [= <-].
Qed.

Lemma groupLoop_order_ok key (ms : list ResourceTagMapping.t) (c c' : Obj.t) :
  order_ok c → groupLoop key c ms = Return c' → order_ok c'.
Proof.
  revert c. induction ms as [|m ms IH]; intros c Hok; simpl.
  - by intros [= <-].
  - destruct (groupStep key c m) as [c1|e] eqn:E; [| done].
    apply IH. by eapply groupStep_order_ok.
Qed.

(** The names [Object.keys] lists for the grouping result are the names of
    its buckets. *)
Lemma groupByCluster_keys (ms : list ResourceTagMapping.t) key (c : Obj.t)
    (k : string) :
  groupByCluster ms key = Return c →
  k ∈ Obj.keys c ↔ k ∈ dom (Obj.own c).
Proof.
  intros Hret. rewrite elem_of_keys, elem_of_dom.
  apply (groupLoop_order_ok key ms Obj.empty c); [| done].
  intros k'. simpl. rewrite lookup_empty, elem_of_nil. split; [done |].
  by intros [? ?].
Qed.

Lemma filter_Permutation {A : Type} (f : A → bool) (l l' : list A) :
  l ≡ₚ l' → List.filter f l ≡ₚ List.filter f l'.
Proof.
  induction 1 as [|x l l' _ IH|x y l|l l' l'' _ IH1 _ IH2]; simpl.
  - done.
  - destruct (f x); [by constructor | done].
  - destruct (f x), (f y); try done. apply perm_swap.
  - by etrans.
Qed.

Lemma members_Permutation key name (ms ms' : list ResourceTagMapping.t) :
  ms ≡ₚ ms' → members key name ms ≡ₚ members key name ms'.
Proof. intros H. unfold members. by rewrite H. Qed.

Lemma poisoned_Permutation key (ms ms' : list ResourceTagMapping.t) :
  ms ≡ₚ ms' → poisoned key ms → poisoned key ms'.
Proof.
  intros H (m & arn & Hin & Hrest). exists m, arn. by rewrite <- H.
Qed.

Lemma expected_Permutation key name (ms ms' : list ResourceTagMapping.t) :
  ms ≡ₚ ms' →
  match expected_bucket key name ms, expected_bucket key name ms' with
  | Some g, Some g' =>
      ClusterGroup.albs g ≡ₚ ClusterGroup.albs g' ∧
      ClusterGroup.ecsServices g ≡ₚ ClusterGroup.ecsServices g'
  | None, None => True
  | _, _ => False
  end.
Proof.
  intros H. pose proof (members_Permutation key name ms ms' H) as Hm.
  unfold expected_bucket. destruct (Obj.inherited name); [done |].
  destruct (members key name ms) as [|a l] eqn:E,
           (members key name ms') as [|a' l'] eqn:E'.
  - done.
  - by apply Permutation_nil_cons in Hm.
  - symmetry in Hm. by apply Permutation_nil_cons in Hm.
  - split; exact (filter_Permutation _ _ _ Hm).
Qed.

(** C6. Grouping a permutation of the mapping list gives the same set of
    cluster names and, under each name, the same load-balancer identifiers
    and the same service identifiers up to order. (Grouping throws on
    one list exactly when it throws on the other, with the same error.) *)
Theorem grouping_permutation_invariant
    (ms ms' : list ResourceTagMapping.t) (clusterTagKey : string) :
  ms ≡ₚ ms' →
  match groupByCluster ms clusterTagKey, groupByCluster ms' clusterTagKey with
  | Return c, Return c' =>
      (∀ name, name ∈ Obj.keys c ↔ name ∈ Obj.keys c') ∧
      dom (Obj.own c) = dom (Obj.own c') ∧
      ∀ name g g',
        Obj.own c !! name = Some g → Obj.own c' !! name = Some g' →
        ClusterGroup.albs g ≡ₚ ClusterGroup.albs g' ∧
        ClusterGroup.ecsServices g ≡ₚ ClusterGroup.ecsServices g'
  | Throw e, Throw e' => e = e'
  | _, _ => False
  end.
Proof.
  intros H.
  pose proof (groupByCluster_spec ms clusterTagKey) as Hs.
  pose proof (groupByCluster_spec ms' clusterTagKey) as Hs'.
  destruct (groupByCluster ms clusterTagKey) as [c|e] eqn:Hret,
           (groupByCluster ms' clusterTagKey) as [c'|e'] eqn:Hret'.
  - destruct Hs as [Htr _], Hs' as [Htr' _].
    assert (dom (Obj.own c) = dom (Obj.own c')) as Hdom; [| split_and!; [| done |]].
    + apply set_eq. intros name. rewrite !elem_of_dom, Htr, Htr'.
      pose proof (expected_Permutation clusterTagKey name ms ms' H) as He.
      destruct (expected_bucket clusterTagKey name ms),
               (expected_bucket clusterTagKey name ms');
        try done; split; intros _; eauto.
    + intros name.
      by rewrite (groupByCluster_keys ms clusterTagKey c name Hret),
                 (groupByCluster_keys ms' clusterTagKey c' name Hret'), Hdom.
    + intros name g g'. rewrite Htr, Htr'. intros Hg Hg'.
      pose proof (expected_Permutation clusterTagKey name ms ms' H) as He.
      by rewrite Hg, Hg' in He.
  - destruct Hs as [_ Hnp], Hs' as [_ Hp].
    apply Hnp. symmetry in H. by eapply poisoned_Permutation.
  - destruct Hs as [_ Hp], Hs' as [_ Hnp].
    apply Hnp. by eapply poisoned_Permutation.
  - destruct Hs as [-> _], Hs' as [-> _]. done.
Qed.

Lemma grouping_permutation_invariant_witness :
  match groupByCluster scenarioB "Cluster",
        groupByCluster (rev scenarioB) "Cluster" with
  | Return c, Return c' =>
      (∀ name, name ∈ Obj.keys c ↔ name ∈ Obj.keys c') ∧
      dom (Obj.own c) = dom (Obj.own c') ∧
      ∀ name g g',
        Obj.own c !! name = Some g → Obj.own c' !! name = Some g' →
        ClusterGroup.albs g ≡ₚ ClusterGroup.albs g' ∧
        ClusterGroup.ecsServices g ≡ₚ ClusterGroup.ecsServices g'
  | Throw e, Throw e' => e = e'
  | _, _ => False
  end.
Proof.
  apply (grouping_permutation_invariant scenarioB (rev scenarioB) "Cluster").
  apply perm_swap.
Defined.

Lemma elem_of_members key (ms : list ResourceTagMapping.t)
    (m : ResourceTagMapping.t) (arn : string) :
  m ∈ ms → arnOf m = Some arn → arn ∈ members key (clusterOf key m) ms.
Proof.
  intros Hin Harn. apply list_elem_of_omap. exists m. split; [done |].
  by rewrite Harn, String.eqb_refl.
Qed.

(** A mapping that is not skipped and whose cluster name is not an
    inherited property name is found in the bucket of its cluster, in the
    list its ARN is classified for. *)
Lemma grouped_member (ms : list ResourceTagMapping.t) key (c : Obj.t)
    (m : ResourceTagMapping.t) (arn : string) :
  groupByCluster ms key = Return c →
  m ∈ ms → arnOf m = Some arn →
  Obj.inherited (clusterOf key m) = false →
  ∃ g, Obj.own c !! clusterOf key m = Some g ∧
       (isEcsService arn = true → arn ∈ ClusterGroup.ecsServices g) ∧
       (isAlbOnly arn = true → arn ∈ ClusterGroup.albs g).
Proof.
  intros Hret Hin Harn Hinh.
  pose proof (groupByCluster_spec ms key) as Hs. rewrite Hret in Hs.
  destruct Hs as [Htr _]. rewrite Htr. unfold expected_bucket. rewrite Hinh.
  pose proof (elem_of_members key ms m arn Hin Harn) as Hmem.
  destruct (members key (clusterOf key m) ms) as [|a l] eqn:E.
  - by apply elem_of_nil in Hmem.
  - eexists. split; [done |].
    split; intros Hk; apply elem_of_filter_bool; by rewrite <- E in *.
Qed.

(** What a bucket holds was classified for the list it is in. *)
Lemma bucket_contents (ms : list ResourceTagMapping.t) key (c : Obj.t)
    (name : string) (g : ClusterGroup.t) :
  groupByCluster ms key = Return c → Obj.own c !! name = Some g →
  Forall (fun arn => isEcsService arn = true) (ClusterGroup.ecsServices g) ∧
  Forall (fun arn => isAlbOnly arn = true) (ClusterGroup.albs g).
Proof.
  intros Hret Hg.
  pose proof (groupByCluster_spec ms key) as Hs. rewrite Hret in Hs.
  destruct Hs as [Htr _]. rewrite Htr in Hg. unfold expected_bucket in Hg.
  destruct (Obj.inherited name); [done |].
  destruct (members key name ms) as [|a l]; [done |]. simplify_eq.
  split; apply Forall_forall; intros arn Hin;
    by apply elem_of_filter_bool in Hin as [_ ?].
Qed.

Lemma includes_truthy (pat arn : string) :
  JS.truthy pat = true → JS.includes pat arn = true → JS.truthy arn = true.
Proof. by destruct pat, arn. Qed.

(** C9. Classification tests the container-service markers first: a
    resource identifier that carries both the [:ecs:] / [service/] markers
    and the [:elasticloadbalancing:] / [loadbalancer/] markers is appended
    to the services list of its cluster and is in no bucket's
    load-balancer list. *)
Theorem service_markers_take_precedence
    (ms : list ResourceTagMapping.t) (clusterTagKey : string) (c : Obj.t)
    (m : ResourceTagMapping.t) (arn : string) :
  groupByCluster ms clusterTagKey = Return c →
  m ∈ ms →
  ResourceTagMapping.ResourceARN m = Some arn →
  JS.includes ":ecs:" arn = true →
  JS.includes "service/" arn = true →
  JS.includes ":elasticloadbalancing:" arn = true →
  JS.includes "loadbalancer/" arn = true →
  (∃ g, Obj.own c !! clusterOf clusterTagKey m = Some g ∧
        arn ∈ ClusterGroup.ecsServices g) ∧
  (∀ name g, Obj.own c !! name = Some g → arn ∉ ClusterGroup.albs g).
Proof.
  intros Hret Hin Ha H1 H2 H3 H4.
  assert (isEcsService arn = true) as Hsvc
    by (unfold isEcsService; by rewrite H1, H2).
  assert (arnOf m = Some arn) as Harn.
  { unfold arnOf. rewrite Ha. by rewrite (includes_truthy ":ecs:" arn). }
  split.
  - destruct (Obj.inherited (clusterOf clusterTagKey m)) eqn:Hinh.
    + pose proof (groupByCluster_spec ms clusterTagKey) as Hs.
      rewrite Hret in Hs. destruct Hs as [_ Hnp]. destruct Hnp.
      exists m, arn. by rewrite Hsvc.
    + destruct (grouped_member ms clusterTagKey c m arn Hret Hin Harn Hinh)
        as (g & Hg & Hs & _).
      exists g. split; [done | by apply Hs].
  - intros name g Hg Hmem.
    destruct (bucket_contents ms clusterTagKey c name g Hret Hg) as [_ Halb].
    rewrite Forall_forall in Halb. specialize (Halb arn Hmem).
    unfold isAlbOnly in Halb. by rewrite Hsvc in Halb.
Qed.

Lemma service_markers_take_precedence_witness :
  (∃ g, Obj.own groupedBothTagged !! clusterOf "Cluster" bothTagged = Some g ∧
        bothMarkers ∈ ClusterGroup.ecsServices g) ∧
  (∀ name g, Obj.own groupedBothTagged !! name = Some g →
             bothMarkers ∉ ClusterGroup.albs g).
Proof.
  apply (service_markers_take_precedence [bothTagged] "Cluster"
           groupedBothTagged bothTagged bothMarkers).
  - vm_compute. reflexivity.
  - apply list_elem_of_here.
  - reflexivity.
  - reflexivity.
  - reflexivity.
  - reflexivity.
  - reflexivity.
Defined.

(** The claim as written fails on a service tagged Cluster= with an empty
    value: after grouping, no bucket is keyed by the empty string and the
    service sits in the [unknown] bucket. *)
Lemma empty_cluster_tag_counterexample :
  groupByCluster [emptyTagged] "Cluster" = Return groupedEmptyTagged ∧
  Obj.get groupedEmptyTagged "" = Obj.Undefined ∧
  Obj.get groupedEmptyTagged "unknown" =
    Obj.Own {| ClusterGroup.clusterName := "unknown";
               ClusterGroup.ecsServices := [svc_api];
               ClusterGroup.albs := [] |}.
Proof. split_and!; vm_compute; reflexivity. Qed.

(** C5, as the code has it. A mapping whose cluster tag is present with the
    empty string as its value is grouped under [unknown], exactly like a
    mapping without the tag; no bucket is ever keyed by the empty string. *)
Theorem empty_cluster_tag_groups_under_unknown
    (ms : list ResourceTagMapping.t) (clusterTagKey : string) (c : Obj.t)
    (m : ResourceTagMapping.t) (arn : string) (tags : list Tag.t) :
  groupByCluster ms clusterTagKey = Return c →
  m ∈ ms →
  arnOf m = Some arn →
  ResourceTagMapping.Tags m = Some tags →
  Tag.Value <$> List.find (fun t => String.eqb (Tag.Key t) clusterTagKey) tags
    = Some "" →
  Obj.own c !! "" = None ∧
  ∃ g, Obj.own c !! "unknown" = Some g ∧
       (isEcsService arn = true → arn ∈ ClusterGroup.ecsServices g) ∧
       (isAlbOnly arn = true → arn ∈ ClusterGroup.albs g).
Proof.
  intros Hret Hin Harn Htags Hval.
  assert (clusterOf clusterTagKey m = "unknown") as Hcn.
  { unfold clusterOf, clusterTagValue. rewrite Htags. simpl. by rewrite Hval. }
  split.
  - pose proof (groupByCluster_spec ms clusterTagKey) as Hs.
    rewrite Hret in Hs. destruct Hs as [Htr _]. rewrite Htr.
    unfold expected_bucket. simpl.
    destruct (members clusterTagKey "" ms) as [|a l] eqn:E; [done |].
    assert (a ∈ members clusterTagKey "" ms) as Ha by (rewrite E; left).
    apply list_elem_of_omap in Ha as (m' & _ & Hm').
    destruct (arnOf m'); [| done].
    destruct (String.eqb_spec (clusterOf clusterTagKey m') "") as [E0|]; [| done].
    pose proof (clusterTagValue_truthy
                  (default [] (ResourceTagMapping.Tags m')) clusterTagKey) as Ht.
    fold (clusterOf clusterTagKey m') in Ht. by rewrite E0 in Ht.
  - rewrite <- Hcn. apply (grouped_member ms clusterTagKey c m arn); try done.
    by rewrite Hcn.
Qed.

Lemma empty_cluster_tag_groups_under_unknown_witness :
  Obj.own groupedEmptyTagged !! "" = None ∧
  ∃ g, Obj.own groupedEmptyTagged !! "unknown" = Some g ∧
       (isEcsService svc_api = true → svc_api ∈ ClusterGroup.ecsServices g) ∧
       (isAlbOnly svc_api = true → svc_api ∈ ClusterGroup.albs g).
Proof.
  apply (empty_cluster_tag_groups_under_unknown [emptyTagged] "Cluster"
           groupedEmptyTagged emptyTagged svc_api
           [ {| Tag.Key := "Cluster"; Tag.Value := "" |} ]).
  - vm_compute. reflexivity.
  - apply list_elem_of_here.
  - reflexivity.
  - reflexivity.
  - reflexivity.
Defined.

(** ** Discovery *)

Section DiscoveryFacts.

Context {Backend : Type}.
Variable tagging_send :
  GetResourcesCommand.t -> Backend -> Completion GetResourcesOutput.t * Backend.

Lemma listLoop_crawls (tagKey tagValue : string) (token : option string)
    (b b' : Backend) (pages : list GetResourcesOutput.t) :
  answers tagging_send tagKey tagValue token b pages b' →
  ∀ (fuel : nat) (out : list ResourceTagMapping.t) (tr : list Event),
    (length pages ≤ fuel)%nat →
    listLoop Backend tagging_send fuel tagKey tagValue out token (mkWorld b tr) =
    Some (Return (out ++ concat (map mappingsOf pages)),
          mkWorld b' (tr ++ map GetResourcesSent
                             (requestsFor tagKey tagValue token pages))).
Proof.
  induction 1 as [token b page b' Hsend Hstop
                 |token b page b' rest b'' Hsend Hgo _ IH];
    intros [|fuel] out tr Hfuel; simpl in Hfuel; try lia.
  - simpl. unfold mbind, async_bind, abind, taggingClient_send. simpl.
    fold (pageRequest tagKey tagValue token). rewrite Hsend, Hstop.
    unfold aret, mappingsOf. rewrite app_nil_r.
    by destruct (GetResourcesOutput.ResourceTagMappingList page);
      rewrite ?app_nil_r.
  - simpl. unfold mbind, async_bind, abind, taggingClient_send. simpl.
    fold (pageRequest tagKey tagValue token). rewrite Hsend, Hgo.
    rewrite IH by lia. unfold mappingsOf at 2.
    destruct (GetResourcesOutput.ResourceTagMappingList page); simpl;
      by rewrite <- !app_assoc.
Qed.

(** C8. For every tag key and value: if the service answers the page
    requests with [pages], each but the last carrying a continuation
    token, then discovery (given fuel for that many iterations) sends
    exactly one request per page, each filtering on the key with the
    single-element value list and page size 50 and passing on the token of
    the page before (none for the first), stops at the page that carries no
    token, and returns the mappings of all pages concatenated in arrival
    order. A page with an empty or missing mapping list is a page like any
    other: it contributes nothing and its token is followed. *)
Theorem listTaggedResources_crawls (tagKey tagValue : string)
    (w : World Backend) (b' : Backend) (pages : list GetResourcesOutput.t)
    (fuel : nat) :
  answers tagging_send tagKey tagValue None (backend w) pages b' →
  (length pages ≤ fuel)%nat →
  listTaggedResources Backend tagging_send fuel tagKey tagValue w =
  Some (Return (concat (map mappingsOf pages)),
        mkWorld b' (trace w ++ map GetResourcesSent
                                 (requestsFor tagKey tagValue None pages))).
Proof.
  intros Hans Hfuel. destruct w as [b tr]. unfold listTaggedResources.
  by rewrite (listLoop_crawls tagKey tagValue None b b' pages Hans).
Qed.

End DiscoveryFacts.

Lemma listTaggedResources_crawls_witness :
  listTaggedResources unit threePages 3 "Team" "NodeJS" (mkWorld tt []) =
  Some (Return [teamTagged svc_api "NodeJS"; teamTagged alb_web "NodeJS"],
        mkWorld tt
          [ GetResourcesSent (pageRequest "Team" "NodeJS" None);
            GetResourcesSent (pageRequest "Team" "NodeJS" (Some "t1"));
            GetResourcesSent (pageRequest "Team" "NodeJS" (Some "t2")) ]).
Proof.
  apply (listTaggedResources_crawls threePages "Team" "NodeJS" (mkWorld tt []) tt
           [ {| GetResourcesOutput.ResourceTagMappingList :=
                  Some [teamTagged svc_api "NodeJS"];
                GetResourcesOutput.PaginationToken := Some "t1" |};
             {| GetResourcesOutput.ResourceTagMappingList := Some [];
                GetResourcesOutput.PaginationToken := Some "t2" |};
             {| GetResourcesOutput.ResourceTagMappingList :=
                  Some [teamTagged alb_web "NodeJS"];
                GetResourcesOutput.PaginationToken := None |} ] 3).
  - eapply answers_more; [reflexivity | reflexivity |].
    eapply answers_more; [reflexivity | reflexivity |].
    eapply answers_last; reflexivity.
  - simpl. lia.
Defined.

(** A response whose token is the empty string ends the crawl like one
    without a token. *)
Example listTaggedResources_empty_token :
  listTaggedResources unit
    (fun _ b =>
       (Return {| GetResourcesOutput.ResourceTagMappingList :=
                    Some [teamTagged svc_api "NodeJS"];
                  GetResourcesOutput.PaginationToken := Some "" |}, b))
    1 "Team" "NodeJS" (mkWorld tt []) =
  Some (Return [teamTagged svc_api "NodeJS"],
        mkWorld tt [GetResourcesSent (pageRequest "Team" "NodeJS" None)]).
Proof. reflexivity. Qed.

(** ** The orchestrator *)

Lemma dashboardsSent_app (tr tr' : list Event) :
  dashboardsSent (tr ++ tr') = dashboardsSent tr ++ dashboardsSent tr'.
Proof. apply omap_app. Qed.

Section HandlerFacts.

Variable env : gmap string string.
Context {Backend : Type}.
Variable tagging_send :
  GetResourcesCommand.t -> Backend -> Completion GetResourcesOutput.t * Backend.
Variable cloudwatch_send :
  PutDashboardCommand.t -> Backend -> Completion unit * Backend.

(** Publishing sends one command; the log line follows only on success. *)
Lemma putDashboard_run (name : string) (widgets : list Widget.t)
    (w : World Backend) :
  putDashboard Backend cloudwatch_send name widgets w =
  let cmd := {| PutDashboardCommand.DashboardName := name;
                PutDashboardCommand.DashboardBody := widgets |} in
  match cloudwatch_send cmd (backend w) with
  | (Return _, b) =>
      Some (Return tt,
            mkWorld b (trace w ++ [PutDashboardSent cmd;
                                   ConsoleLog ("Updated dashboard: " +:+ name)]))
  | (Throw e, b) => Some (Throw e, mkWorld b (trace w ++ [PutDashboardSent cmd]))
  end.
Proof.
  unfold putDashboard, mbind, async_bind, abind, cloudwatchClient_send,
    console_log, emit. simpl.
  destruct (cloudwatch_send _ (backend w)) as [[[]|e] b]; simpl; [| done].
  by rewrite <- app_assoc.
Qed.

Lemma putDashboard_sent (name : string) (widgets : list Widget.t)
    (w w' : World Backend) (r : Completion unit) :
  putDashboard Backend cloudwatch_send name widgets w = Some (r, w') →
  dashboardsSent (trace w') = dashboardsSent (trace w) ++ [name].
Proof.
  rewrite putDashboard_run. simpl.
  destruct (cloudwatch_send _ (backend w)) as [[[]|e] b]; intros [= <- <-];
    simpl; by rewrite dashboardsSent_app.
Qed.

Lemma putDashboard_total (name : string) (widgets : list Widget.t)
    (w : World Backend) :
  ∃ r w', putDashboard Backend cloudwatch_send name widgets w = Some (r, w').
Proof.
  rewrite putDashboard_run. simpl.
  destruct (cloudwatch_send _ (backend w)) as [[[]|e] b]; by eexists _, _.
Qed.

(** The dashboards one loop iteration sends: both on success, the
    executive one or both when a publish call fails. *)
Lemma clusterStep_sent (clusters : Obj.t) (k : string) (g : ClusterGroup.t)
    (w w' : World Backend) (r : Completion unit) :
  Obj.get clusters k = Obj.Own g →
  clusterStep env Backend cloudwatch_send clusters k w = Some (r, w') →
  match r with
  | Return _ =>
      dashboardsSent (trace w') = dashboardsSent (trace w) ++ dashboardsOf env k
  | Throw _ =>
      ∃ sent, (sent = [DASHBOARD_EXEC_PREFIX env +:+ k] ∨ sent = dashboardsOf env k) ∧
              dashboardsSent (trace w') = dashboardsSent (trace w) ++ sent
  end.
Proof.
  intros Hget. unfold clusterStep. rewrite Hget.
  unfold mbind, async_bind, abind.
  destruct (putDashboard_total (DASHBOARD_EXEC_PREFIX env +:+ k)
              (buildExecutiveWidgets env g) w) as (r1 & w1 & E1).
  rewrite E1. apply putDashboard_sent in E1 as S1.
  destruct r1 as [[]|e1].
  - destruct (putDashboard_total (DASHBOARD_DEV_PREFIX env +:+ k)
                (buildDeveloperWidgets env g) w1) as (r2 & w2 & E2).
    rewrite E2. apply putDashboard_sent in E2 as S2.
    destruct r2 as [[]|e2].
    + unfold console_log, emit. intros [= <- <-]. simpl.
      rewrite dashboardsSent_app, S2, S1. simpl.
      by rewrite app_nil_r, <- app_assoc.
    + intros [= <- <-]. exists (dashboardsOf env k). split; [by right |].
      by rewrite S2, S1, <- app_assoc.
  - intros [= <- <-]. exists [DASHBOARD_EXEC_PREFIX env +:+ k].
    split; [by left | done].
Qed.

Lemma clusterLoop_app (clusters : Obj.t) (names names' : list string)
    (w : World Backend) :
  clusterLoop env Backend cloudwatch_send clusters (names ++ names') w =
  match clusterLoop env Backend cloudwatch_send clusters names w with
  | Some (Return _, w1) =>
      clusterLoop env Backend cloudwatch_send clusters names' w1
  | Some (Throw e, w1) => Some (Throw e, w1)
  | None => None
  end.
Proof.
  revert w. induction names as [|k names IH]; intros w; simpl; [done |].
  unfold mbind, async_bind, abind.
  destruct (clusterStep env Backend cloudwatch_send clusters k w)
    as [[[[]|e] w1]|]; [apply IH | done | done].
Qed.

Lemma clusterLoop_sent (clusters : Obj.t) (names : list string)
    (w w' : World Backend) :
  (∀ k, k ∈ names → ∃ g, Obj.get clusters k = Obj.Own g) →
  clusterLoop env Backend cloudwatch_send clusters names w = Some (Return tt, w') →
  dashboardsSent (trace w') =
  dashboardsSent (trace w) ++ flat_map (dashboardsOf env) names.
Proof.
  revert w. induction names as [|k names IH]; intros w Hown; simpl.
  - intros [= <-]. by rewrite app_nil_r.
  - unfold mbind, async_bind, abind.
    destruct (clusterStep env Backend cloudwatch_send clusters k w)
      as [[[[]|e] w1]|] eqn:E; [| done | done].
    intros Hrest.
    destruct (Hown k) as [g Hg]; [left |].
    pose proof (clusterStep_sent clusters k g w w1 (Return tt) Hg E) as S1.
    simpl in S1. rewrite (IH w1); [| | done].
    + by rewrite S1, <- app_assoc.
    + intros k' Hk'. apply Hown. by right.
Qed.

(** Every name [Object.keys] lists for the grouping result reads back as
    a bucket. *)
Lemma keys_read_buckets (ms : list ResourceTagMapping.t) key (c : Obj.t)
    (k : string) :
  groupByCluster ms key = Return c → k ∈ Obj.keys c →
  ∃ g, Obj.get c k = Obj.Own g.
Proof.
  intros Hret Hk. apply (groupByCluster_keys ms key c k Hret) in Hk.
  apply elem_of_dom in Hk as [g Hg]. exists g. unfold Obj.get. by rewrite Hg.
Qed.

(** C3, as the code has it. The per-cluster loop has no handler around the
    publish calls: when publishing fails for a cluster, the error leaves the
    loop and the handler, which rejects with it in the world reached at the
    failing call. The clusters before it had both dashboards sent, the
    failing cluster its executive dashboard or both, and no dashboard of
    any later cluster is sent. *)
Theorem publish_failure_aborts_handler
    (fuel : nat) (w w0 w1 w2 : World Backend)
    (mappings : list ResourceTagMapping.t) (clusters : Obj.t)
    (published : list string) (failing : string) (later : list string)
    (e : Exception) :
  listTaggedResources Backend tagging_send fuel
    (CLUSTER_TAG_KEY env) (TAG_VALUE env) w = Some (Return mappings, w0) →
  groupByCluster mappings (CLUSTER_TAG_KEY env) = Return clusters →
  Obj.keys clusters = published ++ failing :: later →
  clusterLoop env Backend cloudwatch_send clusters published w0
    = Some (Return tt, w1) →
  clusterStep env Backend cloudwatch_send clusters failing w1
    = Some (Throw e, w2) →
  handler env Backend tagging_send cloudwatch_send fuel w = Some (Throw e, w2) ∧
  ∃ sent,
    (sent = [DASHBOARD_EXEC_PREFIX env +:+ failing] ∨
     sent = dashboardsOf env failing) ∧
    dashboardsSent (trace w2) =
    dashboardsSent (trace w0) ++ flat_map (dashboardsOf env) published ++ sent.
Proof.
  intros Hlist Hgroup Hkeys Hdone Hfail. split.
  - unfold handler, mbind, async_bind, abind, sync.
    rewrite Hlist, Hgroup, Hkeys, clusterLoop_app, Hdone. simpl.
    unfold mbind, async_bind, abind. by rewrite Hfail.
  - assert (∀ k, k ∈ Obj.keys clusters → ∃ g, Obj.get clusters k = Obj.Own g)
      as Hown
      by (intros k; by apply (keys_read_buckets mappings (CLUSTER_TAG_KEY env))).
    rewrite Hkeys in Hown.
    destruct (Hown failing) as [g Hg];
      [apply elem_of_app; right; left |].
    destruct (clusterStep_sent clusters failing g w1 w2 (Throw e) Hg Hfail)
      as (sent & Hsent & S2).
    exists sent. split; [done |].
    rewrite S2, (clusterLoop_sent clusters published w0 w1); [| | done].
    + by rewrite <- app_assoc.
    + intros k Hk. apply Hown, elem_of_app. by left.
Qed.

End HandlerFacts.

(** The claim as written fails on two clusters [a] and [b] when the
    executive dashboard of [a] is rejected: the handler rejects, and
    nothing is sent for [b], although [b] follows [a] in iteration
    order. *)
Lemma publish_failure_counterexample :
  (∃ clusters,
     groupByCluster [teamTagged svc_api "a"; teamTagged alb_web "b"] "Team"
       = Return clusters ∧
     Obj.keys clusters = ["a"; "b"]) ∧
  ∃ w',
    handler ∅ unit twoTeams rejectExecA 1 (mkWorld tt [])
      = Some (Throw (ServiceException "InternalServiceFault"), w') ∧
    dashboardsSent (trace w') = ["Exec-a"].
Proof.
  split.
  - eexists. split; [vm_compute; reflexivity | reflexivity].
  - eexists. split; [vm_compute; reflexivity | reflexivity].
Qed.

Lemma publish_failure_aborts_handler_witness :
  handler ∅ unit twoTeams rejectExecA 1 (mkWorld tt [])
    = Some (Throw (ServiceException "InternalServiceFault"), rejectedWorld) ∧
  ∃ sent,
    (sent = [DASHBOARD_EXEC_PREFIX ∅ +:+ "a"] ∨ sent = dashboardsOf ∅ "a") ∧
    dashboardsSent (trace rejectedWorld) =
    dashboardsSent (trace discoveredWorld) ++ flat_map (dashboardsOf ∅) [] ++ sent.
Proof.
  apply (publish_failure_aborts_handler ∅ twoTeams rejectExecA 1
           (mkWorld tt []) discoveredWorld discoveredWorld rejectedWorld
           [teamTagged svc_api "a"; teamTagged alb_web "b"] groupedTwoTeams
           [] "a" ["b"] (ServiceException "InternalServiceFault")).
  - reflexivity.
  - vm_compute. reflexivity.
  - reflexivity.
  - reflexivity.
  - vm_compute. reflexivity.
Defined.

(** * Further properties of the code *)

(** ** ARN helpers *)

Lemma split_no_slash (s : string) :
  no_slash s = true → JS.split "/" s = [s].
Proof.
  induction s as [|c s IH]; simpl; [done |].
  intros [Hc Hs]%andb_true_iff. apply negb_true_iff in Hc.
  by rewrite Hc, (IH Hs).
Qed.

Lemma split_app_slash (a b : string) :
  no_slash a = true →
  JS.split "/" (a +:+ "/" +:+ b) = a :: JS.split "/" b.
Proof.
  induction a as [|c a IH]; intros Ha.
  - done.
  - simpl in Ha. apply andb_true_iff in Ha as [Hc Ha].
    apply negb_true_iff in Hc. rewrite string_app_cons. simpl.
    by rewrite Hc, (IH Ha).
Qed.

(** X1. On an identifier of the form [<prefix>/<cluster>/<service>], with
    slash-free parts and non-empty cluster and service, both extractions
    return the parts exactly: no sentinel is used. *)
Theorem extract_well_formed (prefix cluster service : string) :
  no_slash prefix = true → no_slash cluster = true → no_slash service = true →
  cluster ≠ "" → service ≠ "" →
  extractClusterAndService (prefix +:+ "/" +:+ cluster +:+ "/" +:+ service)
    = {| SvcRef.clusterName := cluster; SvcRef.serviceName := service |} ∧
  extractClusterFromServiceArn (prefix +:+ "/" +:+ cluster +:+ "/" +:+ service)
    = cluster.
Proof.
  intros Hp Hc Hs Hcne Hsne.
  unfold extractClusterAndService, extractClusterFromServiceArn.
  rewrite (split_app_slash prefix _ Hp), (split_app_slash cluster _ Hc),
    (split_no_slash service Hs). simpl.
  by destruct cluster, service.
Qed.

Lemma extract_well_formed_witness :
  extractClusterAndService svc_api
    = {| SvcRef.clusterName := "prod"; SvcRef.serviceName := "api" |} ∧
  extractClusterFromServiceArn svc_api = "prod".
Proof.
  apply (extract_well_formed "arn:aws:ecs:us-east-1:1:service" "prod" "api");
    [reflexivity | reflexivity | reflexivity | discriminate | discriminate].
Defined.

(** X2. The two cluster-name extractions agree exactly when the identifier
    has a non-empty 2nd segment; otherwise one answers [unknown] and the
    other [unknown-cluster]. *)
Theorem extractions_agree_iff (s : string) :
  (extractClusterFromServiceArn s
     = SvcRef.clusterName (extractClusterAndService s)
   ↔ ∃ seg, JS.split "/" s !! 1%nat = Some seg ∧ seg ≠ "") ∧
  (extractClusterFromServiceArn s
     = SvcRef.clusterName (extractClusterAndService s) ∨
   (extractClusterFromServiceArn s = "unknown" ∧
    SvcRef.clusterName (extractClusterAndService s) = "unknown-cluster")).
Proof.
  unfold extractClusterFromServiceArn, extractClusterAndService. simpl.
  destruct (JS.split "/" s !! 1%nat) as [seg|]; simpl.
  - destruct seg as [|c seg]; simpl.
    + split; [| by right]. split; [done |]. by intros (? & [= <-] & ?).
    + split; [| by left]. split; [| done]. intros _. by eexists.
  - split; [| by right]. split; [done |]. by intros (? & ? & _).
Qed.

Lemma indexOf_from_occurs (pat s : string) (i : Z) :
  JS.indexOf_from pat s i ≠ -1 → occurs pat s.
Proof.
  revert i. induction s as [|c s IH]; intros i; rewrite indexOf_from_unfold.
  - destruct (JS.startsWith pat "") eqn:E; [| done].
    intros _. by apply startsWith_occurs.
  - destruct (JS.startsWith pat (String c s)) eqn:E.
    + intros _. by apply startsWith_occurs.
    + intros H. by apply occurs_tail, (IH (i + 1)).
Qed.

Lemma extractAlbDimension_found (s pre post : string) :
  first_occurrence "loadbalancer/" s pre post → extractAlbDimension s = post.
Proof.
  intros Hfirst. pose proof Hfirst as [-> _].
  unfold extractAlbDimension, JS.indexOf.
  rewrite (indexOf_from_first _ _ _ 0 Hfirst).
  destruct (Z.eqb_spec (0 + Z.of_nat (String.length pre)) (-1)) as [E|_]; [lia |].
  unfold JS.substring.
  replace (Z.to_nat _) with (String.length (pre +:+ "loadbalancer/")).
  - rewrite <- string_app_assoc. apply drop_chars_app.
  - rewrite length_app_string. simpl String.length. lia.
Qed.

(** X3. What [extractAlbDimension] returns is always a suffix of its
    argument, and it is the whole argument exactly when the marker
    [loadbalancer/] does not occur in it. *)
Theorem extractAlbDimension_suffix (s : string) :
  (∃ pre, s = pre +:+ extractAlbDimension s) ∧
  (extractAlbDimension s = s ↔ ¬ occurs "loadbalancer/" s).
Proof.
  assert (¬ occurs "loadbalancer/" s → extractAlbDimension s = s) as Habsent.
  { intros Hno. unfold extractAlbDimension, JS.indexOf.
    by rewrite indexOf_from_absent. }
  assert (occurs "loadbalancer/" s →
          ∃ pre post, s = pre +:+ "loadbalancer/" +:+ post ∧
                      extractAlbDimension s = post) as Hpresent.
  { intros Hocc.
    destruct (occurs_first_occurrence _ _ Hocc) as (pre & post & Hfirst).
    exists pre, post. split; [by destruct Hfirst |].
    by apply (extractAlbDimension_found s pre). }
  split.
  - destruct (decide (JS.indexOf "loadbalancer/" s = -1)) as [E | E].
    + exists "". rewrite Habsent; [done |]. by apply indexOf_absent_not_occurs.
    + assert (occurs "loadbalancer/" s) as Hocc
        by (by apply (indexOf_from_occurs _ _ 0)).
      destruct (Hpresent Hocc) as (pre & post & Hs & ->).
      exists (pre +:+ "loadbalancer/"). by rewrite string_app_assoc.
  - split; [| done]. intros Heq Hocc.
    destruct (Hpresent Hocc) as (pre & post & Hs & Hpost).
    rewrite Hpost in Heq. subst post.
    apply (f_equal String.length) in Hs.
    rewrite !length_app_string in Hs. simpl in Hs. lia.
Qed.

(** ** Grouping *)

Lemma groupStep_skipped key (c : Obj.t) (m : ResourceTagMapping.t) :
  kept m = false → groupStep key c m = Return c.
Proof.
  unfold kept, arnOf, groupStep.
  destruct (ResourceTagMapping.ResourceARN m) as [arn|]; [| done].
  by destruct (JS.truthy arn).
Qed.

Lemma groupLoop_filter_kept key (ms : list ResourceTagMapping.t) (c : Obj.t) :
  groupLoop key c (List.filter kept ms) = groupLoop key c ms.
Proof.
  revert c. induction ms as [|m ms IH]; intros c; simpl; [done |].
  destruct (kept m) eqn:E; simpl.
  - destruct (groupStep key c m); [apply IH | done].
  - by rewrite (groupStep_skipped key c m E).
Qed.

(** X4. Mappings without an identifier (missing or empty [ResourceARN])
    have no effect at all on grouping: dropping them from the input gives
    the same result, buckets and key order included. *)
Theorem grouping_ignores_skipped (ms : list ResourceTagMapping.t)
    (clusterTagKey : string) :
  groupByCluster (List.filter kept ms) clusterTagKey
  = groupByCluster ms clusterTagKey.
Proof. apply groupLoop_filter_kept. Qed.

Lemma members_nonempty key name (ms : list ResourceTagMapping.t) :
  members key name ms ≠ [] ↔
  ∃ m arn, m ∈ ms ∧ arnOf m = Some arn ∧ clusterOf key m = name.
Proof.
  split.
  - destruct (members key name ms) as [|a l] eqn:E; [done |]. intros _.
    assert (a ∈ members key name ms) as Ha by (rewrite E; left).
    apply list_elem_of_omap in Ha as (m & Hin & Hm).
    destruct (arnOf m) as [arn|] eqn:Ea; [| done].
    destruct (String.eqb_spec (clusterOf key m) name); [| done].
    by exists m, arn.
  - intros (m & arn & Hin & Ha & <-) E.
    pose proof (elem_of_members key ms m arn Hin Ha) as Hmem.
    rewrite E in Hmem. by apply elem_of_nil in Hmem.
Qed.

(** X5. When grouping returns, [Object.keys] of the result lists exactly
    the cluster names of the mappings that carry an identifier, whatever
    their kind: a resource that is neither a service nor a load balancer
    still gets its (empty) bucket. Names inherited from [Object.prototype]
    are never keys. *)
Theorem grouping_keys (ms : list ResourceTagMapping.t)
    (clusterTagKey : string) (c : Obj.t) (k : string) :
  groupByCluster ms clusterTagKey = Return c →
  k ∈ Obj.keys c ↔
  Obj.inherited k = false ∧
  ∃ m arn, m ∈ ms ∧ arnOf m = Some arn ∧ clusterOf clusterTagKey m = k.
Proof.
  intros Hret.
  rewrite (groupByCluster_keys ms clusterTagKey c k Hret), elem_of_dom.
  pose proof (groupByCluster_spec ms clusterTagKey) as Hs. rewrite Hret in Hs.
  destruct Hs as [Htr _]. rewrite Htr, <- members_nonempty.
  unfold expected_bucket. destruct (Obj.inherited k).
  - split; [by intros [? ?] | by intros [? _]].
  - destruct (members clusterTagKey k ms).
    + split; [by intros [? ?] | by intros [_ ?]].
    + split; [done | by eauto].
Qed.

Lemma grouping_keys_witness :
  "prod" ∈ Obj.keys groupedBothTagged ↔
  Obj.inherited "prod" = false ∧
  ∃ m arn, m ∈ [bothTagged] ∧ arnOf m = Some arn ∧ clusterOf "Cluster" m = "prod".
Proof.
  apply (grouping_keys [bothTagged] "Cluster" groupedBothTagged "prod").
  vm_compute. reflexivity.
Defined.

(** X6. When grouping returns, the bucket under a name records that name
    and holds, in input order and with repetitions, the identifiers of the
    cluster's mappings classified as services, respectively as load
    balancers. *)
Theorem grouping_bucket_contents (ms : list ResourceTagMapping.t)
    (clusterTagKey : string) (c : Obj.t) (name : string) (g : ClusterGroup.t) :
  groupByCluster ms clusterTagKey = Return c →
  Obj.get c name = Obj.Own g →
  ClusterGroup.clusterName g = name ∧
  ClusterGroup.ecsServices g
    = List.filter isEcsService (members clusterTagKey name ms) ∧
  ClusterGroup.albs g
    = List.filter isAlbOnly (members clusterTagKey name ms).
Proof.
  intros Hret Hget.
  pose proof (groupByCluster_spec ms clusterTagKey) as Hs. rewrite Hret in Hs.
  destruct Hs as [Htr _]. unfold Obj.get in Hget. rewrite Htr in Hget.
  unfold expected_bucket in Hget.
  destruct (Obj.inherited name); [done |].
  destruct (members clusterTagKey name ms) as [|a l]; [done |].
  by simplify_eq.
Qed.

Lemma grouping_bucket_contents_witness :
  ClusterGroup.clusterName
    {| ClusterGroup.clusterName := "prod";
       ClusterGroup.ecsServices := [bothMarkers];
       ClusterGroup.albs := [] |} = "prod" ∧
  [bothMarkers] = List.filter isEcsService (members "Cluster" "prod" [bothTagged]) ∧
  [] = List.filter isAlbOnly (members "Cluster" "prod" [bothTagged]).
Proof.
  apply (grouping_bucket_contents [bothTagged] "Cluster" groupedBothTagged "prod"
           {| ClusterGroup.clusterName := "prod";
              ClusterGroup.ecsServices := [bothMarkers];
              ClusterGroup.albs := [] |}).
  - vm_compute. reflexivity.
  - vm_compute. reflexivity.
Defined.

(** X7. Grouping throws exactly when some service or load balancer carries
    a cluster name that is an inherited property name of the [clusters]
    object (such as [constructor] or [toString]); the exception is the
    TypeError of calling [push] on [undefined]. *)
Theorem grouping_throws_iff (ms : list ResourceTagMapping.t)
    (clusterTagKey : string) :
  (groupByCluster ms clusterTagKey = Throw push_undefined
   ↔ poisoned clusterTagKey ms) ∧
  (∀ e, groupByCluster ms clusterTagKey = Throw e → e = push_undefined).
Proof.
  pose proof (groupByCluster_spec ms clusterTagKey) as Hs.
  destruct (groupByCluster ms clusterTagKey) as [c|e].
  - destruct Hs as [_ Hnp]. split; [| done]. split; [done | by intros ?].
  - destruct Hs as [-> Hp]. split; [done |]. by intros e [= <-].
Qed.

(** X8. In every bucket of the result the two lists are kept apart by the
    classification: each entry of [ecsServices] carries both service
    markers, each entry of [albs] carries both load-balancer markers and
    not both service markers, so no identifier is in both lists. *)
Theorem grouping_lists_classified (ms : list ResourceTagMapping.t)
    (clusterTagKey : string) (c : Obj.t) (name : string) (g : ClusterGroup.t) :
  groupByCluster ms clusterTagKey = Return c →
  Obj.get c name = Obj.Own g →
  (∀ arn, arn ∈ ClusterGroup.ecsServices g →
     JS.includes ":ecs:" arn = true ∧ JS.includes "service/" arn = true) ∧
  (∀ arn, arn ∈ ClusterGroup.albs g →
     JS.includes ":elasticloadbalancing:" arn = true ∧
     JS.includes "loadbalancer/" arn = true ∧
     isEcsService arn = false) ∧
  (∀ arn, arn ∈ ClusterGroup.ecsServices g → arn ∉ ClusterGroup.albs g).
Proof.
  intros Hret Hget.
  assert (Obj.own c !! name = Some g) as Hown.
  { unfold Obj.get in Hget. destruct (Obj.own c !! name); [by simplify_eq |].
    by destruct (Obj.inherited name). }
  destruct (bucket_contents ms clusterTagKey c name g Hret Hown) as [Hsvc Halb].
  rewrite Forall_forall in Hsvc. rewrite Forall_forall in Halb.
  split_and!.
  - intros arn Hin. specialize (Hsvc arn Hin).
    by apply andb_true_iff in Hsvc.
  - intros arn Hin. specialize (Halb arn Hin). unfold isAlbOnly in Halb.
    apply andb_true_iff in Halb as [Hn Hb]. apply negb_true_iff in Hn.
    by apply andb_true_iff in Hb as [? ?].
  - intros arn Hin Hin'. specialize (Hsvc arn Hin). specialize (Halb arn Hin').
    unfold isAlbOnly in Halb. by rewrite Hsvc in Halb.
Qed.

Lemma grouping_lists_classified_witness :
  groupByCluster [bothTagged] "Cluster" = Return groupedBothTagged ∧
  JS.includes ":ecs:" bothMarkers = true ∧
  JS.includes "service/" bothMarkers = true.
Proof.
  split; [vm_compute; reflexivity |].
  destruct (grouping_lists_classified [bothTagged] "Cluster" groupedBothTagged
              "prod"
              {| ClusterGroup.clusterName := "prod";
                 ClusterGroup.ecsServices := [bothMarkers];
                 ClusterGroup.albs := [] |}) as [Hsvc _].
  - vm_compute. reflexivity.
  - vm_compute. reflexivity.
  - apply Hsvc. simpl. left.
Defined.

(** *** Key order *)

Lemma elem_of_dedup (l : list string) (k : string) :
  k ∈ dedup l ↔ k ∈ l.
Proof.
  induction l as [|a l IH]; simpl; [done |].
  rewrite !elem_of_cons, elem_of_filter_bool, IH, negb_true_iff.
  destruct (String.eqb_spec k a) as [-> | Hne]; [tauto |].
  split; [tauto | intros [? | ?]; [done | by right]].
Qed.

Lemma dedup_snoc (l : list string) (k : string) :
  dedup (l ++ [k]) = if bool_decide (k ∈ l) then dedup l else dedup l ++ [k].
Proof.
  induction l as [|a l IH]; simpl; [done |]. rewrite IH.
  destruct (decide (k = a)) as [-> | Hne].
  - rewrite (bool_decide_eq_true_2 (a ∈ a :: l)) by left.
    case_bool_decide as Hin; [done |].
    rewrite List.filter_app. simpl. rewrite String.eqb_refl. simpl.
    by rewrite app_nil_r.
  - case_bool_decide as Hin.
    + by rewrite (bool_decide_eq_true_2 (k ∈ a :: l)) by (by right).
    + rewrite (bool_decide_eq_false_2 (k ∈ a :: l))
        by (intros [? | ?]%elem_of_cons; done).
      rewrite List.filter_app. simpl.
      by destruct (String.eqb_spec k a).
Qed.

Lemma NoDup_dedup (l : list string) : NoDup (dedup l).
Proof.
  induction l as [|a l IH]; simpl; [constructor |].
  apply NoDup_cons. split.
  - rewrite elem_of_filter_bool, String.eqb_refl. by intros [_ ?].
  - by apply NoDup_ListNoDup, List.NoDup_filter, NoDup_ListNoDup.
Qed.

Lemma insert_index_Permutation (e : N * string) (l : list (N * string)) :
  Obj.insert_index e l ≡ₚ e :: l.
Proof.
  induction l as [|a l IH]; simpl; [done |].
  destruct (fst e <=? fst a)%N; [done |].
  rewrite IH. apply perm_swap.
Qed.

Lemma index_keys_names (ks : list string) :
  map snd (Obj.index_keys ks)
  ≡ₚ List.filter (fun k => bool_decide (is_Some (Obj.array_index k))) ks.
Proof.
  unfold Obj.index_keys. induction ks as [|k ks IH]; simpl; [done |].
  destruct (Obj.array_index k) as [n|] eqn:E; simpl.
  - rewrite insert_index_Permutation. simpl. by rewrite IH.
  - done.
Qed.

Lemma filter_split_Permutation {A : Type} (p : A → bool) (l : list A) :
  List.filter p l ++ List.filter (fun a => negb (p a)) l ≡ₚ l.
Proof.
  induction l as [|a l IH]; simpl; [done |].
  destruct (p a); simpl.
  - by rewrite IH.
  - rewrite <- Permutation_middle. by rewrite IH.
Qed.

Lemma keys_Permutation (o : Obj.t) : Obj.keys o ≡ₚ Obj.order o.
Proof.
  unfold Obj.keys. rewrite index_keys_names. apply filter_split_Permutation.
Qed.

Lemma keys_without_indices (o : Obj.t) :
  Forall (fun k => Obj.array_index k = None) (Obj.order o) →
  Obj.keys o = Obj.order o.
Proof.
  unfold Obj.keys, Obj.index_keys. intros Hall.
  assert (omap (fun k => (fun n => (n, k)) <$> Obj.array_index k) (Obj.order o)
          = []) as ->.
  { induction Hall as [|k ks Hk _ IH]; simpl; [done |]. by rewrite Hk. }
  simpl. induction Hall as [|k ks Hk _ IH]; simpl; [done |].
  rewrite Hk. rewrite bool_decide_eq_false_2 by (by intros [? ?]).
  simpl. by rewrite IH.
Qed.

(** The creation order after one iteration: the name is appended when the
    iteration creates its bucket. *)
Lemma groupStep_order key (c c' : Obj.t) (m : ResourceTagMapping.t) :
  groupStep key c m = Return c' →
  Obj.order c' =
  Obj.order c ++
  match bucketName key m with
  | Some k => if bool_decide (is_Some (Obj.own c !! k)) then [] else [k]
  | None => []
  end.
Proof.
  unfold groupStep, bucketName, kept, arnOf.
  destruct (ResourceTagMapping.ResourceARN m) as [arn|];
    [| intros [= <-]; by rewrite app_nil_r].
  destruct (JS.truthy arn); simpl; [| intros [= <-]; by rewrite app_nil_r].
  fold (clusterOf key m). set (cn := clusterOf key m).
  set (c1 := if negb (Obj.slot_truthy (Obj.get c cn)) then _ else c).
  assert (Obj.order c1 =
          Obj.order c ++
          (if negb (Obj.inherited cn)
           then if bool_decide (is_Some (Obj.own c !! cn)) then [] else [cn]
           else [])) as Horder.
  { subst c1. unfold Obj.get, Obj.set.
    destruct (Obj.own c !! cn) as [g|] eqn:E; simpl.
    - destruct (negb _); by rewrite app_nil_r.
    - destruct (Obj.inherited cn); simpl; by rewrite ?app_nil_r. }
  intros Hret.
  assert (Obj.order c' = Obj.order c1) as ->.
  { revert Hret.
    destruct (isEcsService arn); [| destruct (isAlb arn)];
      try destruct (Obj.get c1 cn) as [g| |];
      intros Hret; by simplify_eq. }
  rewrite Horder. by destruct (negb (Obj.inherited cn)).
Qed.

Lemma groupByCluster_order (ms : list ResourceTagMapping.t) key (c : Obj.t) :
  groupByCluster ms key = Return c →
  Obj.order c = dedup (omap (bucketName key) ms).
Proof.
  unfold groupByCluster. revert c.
  induction ms as [|m ms IH] using rev_ind; intros c Hret.
  - by injection Hret as <-.
  - rewrite groupLoop_snoc in Hret.
    destruct (groupLoop key Obj.empty ms) as [c0|e] eqn:E0; [| done].
    specialize (IH c0 eq_refl).
    assert (order_ok c0) as Hok.
    { apply (groupLoop_order_ok key ms Obj.empty c0); [| done].
      intros k. simpl. rewrite lookup_empty, elem_of_nil. split; [done |].
      by intros [? ?]. }
    rewrite (groupStep_order key c0 c m Hret), omap_app. simpl.
    destruct (bucketName key m) as [k|]; simpl.
    + rewrite dedup_snoc, <- IH.
      assert (is_Some (Obj.own c0 !! k) ↔ k ∈ omap (bucketName key) ms) as Hiff
        by (by rewrite <- (Hok k), IH, elem_of_dedup).
      case_bool_decide as H1; case_bool_decide as H2; try done.
      * by rewrite app_nil_r.
      * by apply Hiff in H1.
      * by apply Hiff in H2.
    + by rewrite !app_nil_r.
Qed.

(** X9. When grouping returns, [Object.keys] of the result lists every
    cluster once: it has no repetition and is a rearrangement of the
    cluster names in order of first appearance. *)
Theorem grouping_keys_distinct (ms : list ResourceTagMapping.t)
    (clusterTagKey : string) (c : Obj.t) :
  groupByCluster ms clusterTagKey = Return c →
  NoDup (Obj.keys c) ∧
  Obj.keys c ≡ₚ dedup (omap (bucketName clusterTagKey) ms).
Proof.
  intros Hret.
  pose proof (groupByCluster_order ms clusterTagKey c Hret) as Horder.
  assert (Obj.keys c ≡ₚ dedup (omap (bucketName clusterTagKey) ms)) as Hperm
    by (by rewrite keys_Permutation, Horder).
  split; [| done]. rewrite Hperm. apply NoDup_dedup.
Qed.

Lemma grouping_keys_distinct_witness :
  NoDup (Obj.keys groupedTwoTeams) ∧
  Obj.keys groupedTwoTeams
  ≡ₚ dedup (omap (bucketName "Team")
               [teamTagged svc_api "a"; teamTagged alb_web "b"]).
Proof.
  apply (grouping_keys_distinct
           [teamTagged svc_api "a"; teamTagged alb_web "b"] "Team" groupedTwoTeams).
  vm_compute. reflexivity.
Defined.

(** X10. When no cluster name is an array index (the canonical decimal form
    of an integer below 2^32 - 1), [Object.keys] of the grouping result is
    the list of cluster names in order of first appearance in the input;
    this is the order in which the handler processes the clusters. *)
Theorem grouping_keys_first_seen (ms : list ResourceTagMapping.t)
    (clusterTagKey : string) (c : Obj.t) :
  groupByCluster ms clusterTagKey = Return c →
  Forall (fun k => Obj.array_index k = None)
         (omap (bucketName clusterTagKey) ms) →
  Obj.keys c = dedup (omap (bucketName clusterTagKey) ms).
Proof.
  intros Hret Hall.
  pose proof (groupByCluster_order ms clusterTagKey c Hret) as Horder.
  rewrite <- Horder. apply keys_without_indices. rewrite Horder.
  rewrite Forall_forall in Hall. apply Forall_forall.
  intros k Hk. by apply Hall, elem_of_dedup.
Qed.

Lemma grouping_keys_first_seen_witness :
  Obj.keys groupedTwoTeams
  = dedup (omap (bucketName "Team")
             [teamTagged svc_api "a"; teamTagged alb_web "b"]).
Proof.
  apply (grouping_keys_first_seen
           [teamTagged svc_api "a"; teamTagged alb_web "b"] "Team" groupedTwoTeams).
  - vm_compute. reflexivity.
  - apply (bool_decide_unpack _). vm_compute. exact I.
Defined.

(** Numeric cluster names come first, in numeric order, whatever the input
    order. *)
Example grouping_keys_numeric_first :
  ∃ c, groupByCluster
         [teamTagged svc_api "b"; teamTagged svc_api "10"; teamTagged alb_web "2"]
         "Team" = Return c ∧
       Obj.keys c = ["2"; "10"; "b"].
Proof. eexists. split; [vm_compute; reflexivity | reflexivity]. Qed.

(** ** Metric queries *)

Lemma fold_push_flat_map {A B : Type} (f : A → list B) (l : list A)
    (init : list B) :
  fold_left (fun acc a => acc ++ f a) l init = init ++ flat_map f l.
Proof.
  revert init. induction l as [|a l IH]; intros init; simpl.
  - by rewrite app_nil_r.
  - by rewrite IH, <- app_assoc.
Qed.

Lemma execTrafficMetrics_rows (albs : list string) :
  execTrafficMetrics albs = flat_map trafficRows albs.
Proof.
  unfold execTrafficMetrics, push.
  match goal with
  | |- fold_left ?F _ _ = _ =>
      enough (∀ init, fold_left F albs init = init ++ flat_map trafficRows albs)
        as H by apply (H [])
  end.
  induction albs as [|a l IH]; intros init; simpl.
  - by rewrite app_nil_r.
  - rewrite IH. by rewrite <- !app_assoc.
Qed.

Lemma latencyMetrics_rows (albs : list string) :
  latencyMetrics albs = map latencyRow albs.
Proof.
  unfold latencyMetrics, push.
  match goal with
  | |- fold_left ?F _ _ = _ =>
      enough (∀ init, fold_left F albs init = init ++ map latencyRow albs)
        as H by apply (H [])
  end.
  induction albs as [|a l IH]; intros init; simpl.
  - by rewrite app_nil_r.
  - rewrite IH. by rewrite <- !app_assoc.
Qed.

Lemma devAlbMetrics_rows (albs : list string) :
  devAlbMetrics albs = (flat_map errorRows albs, map latencyRow albs).
Proof.
  unfold devAlbMetrics, push.
  match goal with
  | |- fold_left ?F _ _ = _ =>
      enough (∀ e t, fold_left F albs (e, t)
                     = (e ++ flat_map errorRows albs, t ++ map latencyRow albs))
        as H by apply (H [] [])
  end.
  induction albs as [|a l IH]; intros e t; simpl.
  - by rewrite !app_nil_r.
  - rewrite IH. by rewrite <- !app_assoc.
Qed.

Lemma tlsMetrics_rows (albs : list string) :
  fold_left
    (fun metrics albArn =>
       push metrics [MStr "AWS/ApplicationELB";
                     MStr "ClientTLSNegotiationErrorCount";
                     MStr "LoadBalancer"; MStr (extractAlbDimension albArn)])
    albs []
  = map tlsRow albs.
Proof.
  unfold push.
  match goal with
  | |- fold_left ?F _ _ = _ =>
      enough (∀ init, fold_left F albs init = init ++ map tlsRow albs)
        as H by apply (H [])
  end.
  induction albs as [|a l IH]; intros init; simpl.
  - by rewrite app_nil_r.
  - rewrite IH. by rewrite <- !app_assoc.
Qed.

(** X11. For a cluster with load balancers, the load-balancer widgets
    query the load balancers in input order, each under the dimension
    [extractAlbDimension] gives: the executive traffic widget (the first
    the executive builder returns) has three rows per load balancer, the
    executive latency widget (the second) one p95 row, and the TLS widget
    one row. *)
Theorem alb_queries_follow_input env (resources : ClusterGroup.t)
    (a : string) (rest : list string) :
  ClusterGroup.albs resources = a :: rest →
  metricsOf <$> buildExecutiveWidgets env resources !! 0%nat
    = Some (flat_map trafficRows (a :: rest)) ∧
  metricsOf <$> buildExecutiveWidgets env resources !! 1%nat
    = Some (map latencyRow (a :: rest)) ∧
  metricsOf <$> buildAlbTlsNegotiationErrorsWidget env resources 0 0 12 6
    = Some (map tlsRow (a :: rest)).
Proof.
  intros Ea. split_and!.
  - unfold buildExecutiveWidgets, push. rewrite Ea.
    change (0 <? length (a :: rest))%nat with true. cbv iota.
    rewrite execTrafficMetrics_rows.
    by destruct (ClusterGroup.ecsServices resources).
  - unfold buildExecutiveWidgets, push. rewrite Ea.
    change (0 <? length (a :: rest))%nat with true. cbv iota.
    rewrite latencyMetrics_rows.
    by destruct (ClusterGroup.ecsServices resources).
  - unfold buildAlbTlsNegotiationErrorsWidget.
    rewrite tlsMetrics_rows, Ea. reflexivity.
Qed.

Lemma alb_queries_follow_input_witness :
  metricsOf <$> buildExecutiveWidgets ∅
                  {| ClusterGroup.clusterName := "prod";
                     ClusterGroup.ecsServices := [];
                     ClusterGroup.albs := [alb_web] |} !! 0%nat
    = Some (flat_map trafficRows [alb_web]).
Proof.
  apply (alb_queries_follow_input ∅
           {| ClusterGroup.clusterName := "prod";
              ClusterGroup.ecsServices := [];
              ClusterGroup.albs := [alb_web] |} alb_web []).
  reflexivity.
Defined.

(** ** The executive layout *)

Lemma executive_rects env (resources : ClusterGroup.t) :
  length (buildExecutiveWidgets env resources)
  = ((match ClusterGroup.albs resources with [] => 0 | _ :: _ => 2 end)
     + (match ClusterGroup.ecsServices resources with [] => 0 | _ :: _ => 1 end))%nat ∧
  ∀ (i : nat) (w : Widget.t),
    buildExecutiveWidgets env resources !! i = Some w →
    rect w = (0, 6 * Z.of_nat i, 12, 6).
Proof.
  unfold buildExecutiveWidgets, push.
  destruct (ClusterGroup.albs resources) as [|a albs],
           (ClusterGroup.ecsServices resources) as [|s svcs];
    (split; [reflexivity |]); intros [|[|[|i]]] w Hw; simpl in Hw; try done;
    by injection Hw as <-.
Qed.

(** X12. The executive builder stacks the rows it emits from row 0 in
    steps of 6 without a gap, each 12 wide and 6 tall at x = 0: two rows
    when the cluster has a load balancer, one more when it has a service,
    none for a cluster without resources. *)
Theorem executive_rows_stack env (resources : ClusterGroup.t) :
  length (buildExecutiveWidgets env resources)
  = ((match ClusterGroup.albs resources with [] => 0 | _ :: _ => 2 end)
     + (match ClusterGroup.ecsServices resources with [] => 0 | _ :: _ => 1 end))%nat ∧
  ∀ (i : nat) (w : Widget.t),
    buildExecutiveWidgets env resources !! i = Some w →
    rect w = (0, 6 * Z.of_nat i, 12, 6).
Proof.
  destruct (executive_rects env resources) as [Hlen Hrect].
  split; [exact Hlen |]. intros i w Hw. by apply Hrect.
Qed.

Lemma executive_rows_stack_witness :
  rect {| Widget.type := "metric"; Widget.x := 0; Widget.y := 6;
          Widget.width := 12; Widget.height := 6;
          Widget.properties :=
            {| Properties.region := REGION ∅;
               Properties.view := "timeSeries";
               Properties.period := 60;
               Properties.stat := None;
               Properties.stacked := None;
               Properties.title := "prod – Latency (p95)";
               Properties.metrics := latencyMetrics [alb_web] |} |}
  = (0, 6 * Z.of_nat 1, 12, 6).
Proof.
  apply (proj2 (executive_rows_stack ∅
                  {| ClusterGroup.clusterName := "prod";
                     ClusterGroup.ecsServices := [];
                     ClusterGroup.albs := [alb_web] |}) 1%nat).
  reflexivity.
Defined.

(** ** The developer layout *)

Lemma place_cursor_at (y0 : Z) (k : nat) (st : Layout.t) (w : Widget.t) :
  cursor_at y0 k st → cursor_at y0 (S k) (place 8 6 st w).
Proof.
  intros (Hcol & Hx & Hy). unfold place, cursor_at.
  rewrite Nat2Z.inj_succ. unfold Z.succ.
  destruct (Z.eqb_spec (Layout.col st + 1) 3) as [E | E]; simpl;
    rewrite ?Hcol, ?Hx, ?Hy; rewrite Hcol in E;
    Z.div_mod_to_equations; lia.
Qed.

(** A per-service loop that starts with the cursor after [k] cells of a
    block appends the remaining cells of the block. *)
Lemma fold_cells (step : Layout.t → string → Layout.t)
    (cell : string → Z → Z → Widget.t) (y0 : Z) :
  (∀ st a, step st a = place 8 6 st (cell a (Layout.x st) (Layout.y st))) →
  ∀ (l : list string) (k : nat) (st : Layout.t),
    cursor_at y0 k st →
    Layout.widgets (fold_left step l st)
      = Layout.widgets st ++ cells cell y0 k l ∧
    cursor_at y0 (k + length l) (fold_left step l st).
Proof.
  intros Hstep. induction l as [|a l IH]; intros k st Hst; simpl.
  - by rewrite app_nil_r, Nat.add_0_r.
  - destruct (IH (S k) (step st a)) as [Hw Hc].
    { rewrite Hstep. by apply place_cursor_at. }
    split; [| by rewrite <- Nat.add_succ_comm].
    rewrite Hw, Hstep, place_widgets, <- app_assoc. simpl.
    destruct Hst as (_ & Hx & Hy). by rewrite Hx, Hy.
Qed.

Lemma cells_length (cell : string → Z → Z → Widget.t) (y0 : Z) (k : nat)
    (l : list string) :
  length (cells cell y0 k l) = length l.
Proof. revert k. induction l as [|a l IH]; intros k; simpl; [done | by rewrite IH]. Qed.

Lemma developerLayout_correct env (resources : ClusterGroup.t) :
  buildDeveloperWidgets env resources = developerLayout env resources.
Proof.
  unfold buildDeveloperWidgets, developerLayout.
  rewrite devAlbMetrics_rows.
  destruct (ClusterGroup.ecsServices resources) as [|s svcs] eqn:Es.
  - simpl. destruct (ClusterGroup.albs resources) as [|a albs] eqn:Ea; [done |].
    unfold albPairAt, push. by rewrite Ea.
  - set (services := s :: svcs).
    change (0 <? length services)%nat with true. cbv iota.
    set (st0 := {| Layout.widgets := []; Layout.x := 0; Layout.y := 0;
                   Layout.col := 0 |}).
    assert (cursor_at 0 0 st0) as H0 by done.
    destruct (fold_cells (cpuMemStep env 8 6) (cpuMemWidgetAt env) 0
                (fun st a => eq_refl) services 0 st0 H0) as [Hw1 Hc1].
    set (st1 := fold_left (cpuMemStep env 8 6) services st0) in *.
    destruct Hc1 as (_ & _ & Hy1).
    set (n := Z.of_nat (length services)) in *.
    set (st1' := {| Layout.widgets := Layout.widgets st1; Layout.x := 0;
                    Layout.y := Layout.y st1 + 6; Layout.col := 0 |}).
    assert (cursor_at (6 * (n / 3) + 6) 0 st1') as H1.
    { unfold cursor_at. simpl Layout.col. simpl Layout.x. simpl Layout.y.
      rewrite Hy1. fold n.
      split_and!; [done | done | Z.div_mod_to_equations; lia]. }
    destruct (fold_cells (tasksStep env 8 6) (tasksWidgetAt env) (6 * (n / 3) + 6)
                (fun st a => eq_refl) services 0 st1' H1) as [Hw2 Hc2].
    set (st2 := fold_left (tasksStep env 8 6) services st1') in *.
    destruct Hc2 as (_ & _ & Hy2).
    change (0 + length services)%nat with (length services) in Hy2.
    fold n in Hy2.
    assert (Z.eqb n 0 = false) as ->.
    { apply Z.eqb_neq. subst n services. simpl length. lia. }
    assert (Layout.widgets st2
            = cells (cpuMemWidgetAt env) 0 0 services
              ++ cells (tasksWidgetAt env) (6 * (n / 3) + 6) 0 services) as Hw.
    { rewrite Hw2. subst st1'. simpl Layout.widgets. by rewrite Hw1. }
    rewrite Hw, Hy2.
    destruct (ClusterGroup.albs resources) as [|a albs] eqn:Ea.
    + change (0 <? length (@nil string))%nat with false. cbv iota.
      by rewrite app_nil_r.
    + change (0 <? length (a :: albs))%nat with true. cbv iota.
      unfold albPairAt, push. rewrite Ea, <- !app_assoc. reflexivity.
Qed.

(** X13. The developer builder returns exactly the closed-form layout: the
    CPU/Memory cell of service number [i] at column [i mod 3] (x = 0, 8 or
    16) of row [i / 3] (y in steps of 6), the Tasks cells in the same
    arrangement one row below the row in which the first block's cursor
    ends, both blocks in service order, and, when the cluster has a load
    balancer, the error and latency pair at x = 0 and x = 12 one row below
    the last cursor row. *)
Theorem developer_layout_closed_form env (resources : ClusterGroup.t) :
  buildDeveloperWidgets env resources = developerLayout env resources ∧
  length (buildDeveloperWidgets env resources)
  = (2 * length (ClusterGroup.ecsServices resources)
     + match ClusterGroup.albs resources with [] => 0 | _ :: _ => 2 end)%nat.
Proof.
  split; [apply developerLayout_correct |].
  rewrite developerLayout_correct. unfold developerLayout.
  rewrite !length_app, !cells_length.
  destruct (ClusterGroup.albs resources); simpl; lia.
Qed.

Lemma cells_lookup (cell : string → Z → Z → Widget.t) (y0 : Z) (k : nat)
    (l : list string) (i : nat) :
  cells cell y0 k l !! i
  = (fun a => cell a (8 * (Z.of_nat (k + i) mod 3))
                     (y0 + 6 * (Z.of_nat (k + i) / 3))) <$> l !! i.
Proof.
  revert k i. induction l as [|a l IH]; intros k [|i]; simpl; try done.
  - by rewrite Nat.add_0_r.
  - rewrite IH. by rewrite <- Nat.add_succ_comm.
Qed.

(** X14. The developer builder returns two widgets per service, plus two
    when the cluster has a load balancer. The widgets of service number [i]
    are number [i] (CPU/Memory) and number [n + i] (Tasks) of the result,
    both in column [i mod 3] (x = 8 times the column) and in row [i / 3] of
    their block; the Tasks block starts at y = 6 * (n / 3) + 6. *)
Theorem developer_cells env (resources : ClusterGroup.t) (i : nat)
    (svcArn : string) :
  ClusterGroup.ecsServices resources !! i = Some svcArn →
  let n := length (ClusterGroup.ecsServices resources) in
  length (buildDeveloperWidgets env resources)
  = (2 * n + match ClusterGroup.albs resources with [] => 0 | _ :: _ => 2 end)%nat ∧
  buildDeveloperWidgets env resources !! i
  = Some (cpuMemWidgetAt env svcArn
            (8 * (Z.of_nat i mod 3)) (6 * (Z.of_nat i / 3))) ∧
  buildDeveloperWidgets env resources !! (n + i)%nat
  = Some (tasksWidgetAt env svcArn
            (8 * (Z.of_nat i mod 3))
            (6 * (Z.of_nat n / 3) + 6 + 6 * (Z.of_nat i / 3))).
Proof.
  intros Hi n. rewrite developerLayout_correct. unfold developerLayout.
  fold n. split_and!.
  - rewrite !length_app, !cells_length. fold n.
    destruct (ClusterGroup.albs resources); simpl; lia.
  - rewrite lookup_app_l_Some
      with (x := cpuMemWidgetAt env svcArn (8 * (Z.of_nat i mod 3))
                   (6 * (Z.of_nat i / 3))); [done |].
    rewrite cells_lookup, Hi. simpl. by rewrite Z.add_0_l.
  - rewrite lookup_app_r by (rewrite cells_length; fold n; lia).
    rewrite cells_length. fold n.
    replace (n + i - n)%nat with i by lia.
    apply lookup_app_l_Some. rewrite cells_lookup, Hi. done.
Qed.

Lemma developer_cells_witness :
  buildDeveloperWidgets ∅
    {| ClusterGroup.clusterName := "prod";
       ClusterGroup.ecsServices := [svc_api; svc_api; svc_api; svc_api];
       ClusterGroup.albs := [] |} !! 7%nat
  = Some (tasksWidgetAt ∅ svc_api 0 18).
Proof.
  apply (developer_cells ∅
           {| ClusterGroup.clusterName := "prod";
              ClusterGroup.ecsServices := [svc_api; svc_api; svc_api; svc_api];
              ClusterGroup.albs := [] |} 3 svc_api).
  reflexivity.
Defined.

(** ** Rectangles *)

Lemma row_clear_no_overlap (a b : Widget.t) :
  row_clear a b → ¬ overlap a b ∧ ¬ overlap b a.
Proof. unfold row_clear, overlap. lia. Qed.

Lemma sorted_lookup_lt {A : Type} (R : A → A → Prop) (l : list A)
    (i j : nat) (a b : A) :
  StronglySorted R l → (i < j)%nat → l !! i = Some a → l !! j = Some b → R a b.
Proof.
  intros Hs. revert i j. induction Hs as [|x l _ IH Hall]; intros i j Hij Ha Hb.
  - done.
  - destruct j as [|j]; [lia |]. simpl in Hb. destruct i as [|i]; simpl in Ha.
    + injection Ha as <-. rewrite Forall_forall in Hall.
      apply Hall. apply list_elem_of_lookup. by exists j.
    + apply (IH i j); [lia | done | done].
Qed.

Lemma sorted_disjoint_layout (ws : list Widget.t) :
  StronglySorted row_clear ws → disjoint_layout ws.
Proof.
  intros Hs i j a b Hij Ha Hb.
  destruct (Nat.lt_total i j) as [Hlt | [Heq | Hlt]].
  - destruct (row_clear_no_overlap a b) as [H _]; [| done].
    by apply (sorted_lookup_lt row_clear ws i j).
  - by destruct Hij.
  - destruct (row_clear_no_overlap b a) as [_ H]; [| done].
    by apply (sorted_lookup_lt row_clear ws j i).
Qed.

Lemma sorted_clear_snoc (ws : list Widget.t) (w : Widget.t) :
  StronglySorted row_clear ws → Forall (fun a => row_clear a w) ws →
  StronglySorted row_clear (ws ++ [w]).
Proof.
  intros Hl Hp. apply StronglySorted_app. split_and!; [| done | repeat constructor].
  intros a b Ha ->%list_elem_of_singleton.
  rewrite Forall_forall in Hp. by apply Hp.
Qed.

Lemma place_clear (width height : Z) (st : Layout.t) (w : Widget.t) :
  0 ≤ width → 0 ≤ height →
  rect w = (Layout.x st, Layout.y st, width, height) →
  cursor_clear height st → cursor_clear height (place width height st w).
Proof.
  intros Hw Hh Hrect [Hsorted Hpast]. unfold rect in Hrect.
  injection Hrect as Hx Hy Hwd Hht.
  assert (StronglySorted row_clear (Layout.widgets st ++ [w])) as Hs.
  { apply sorted_clear_snoc; [done |].
    eapply Forall_impl; [exact Hpast |].
    intros a. unfold cursor_past, row_clear. lia. }
  unfold place, push.
  destruct (Layout.col st + 1 =? 3); split; simpl; try done;
    (apply Forall_app; split;
       [eapply Forall_impl; [exact Hpast |]; intros a; unfold cursor_past; lia
       | apply Forall_singleton; unfold cursor_past; lia]).
Qed.

Lemma fold_clear (step : Layout.t → string → Layout.t) (height : Z)
    (l : list string) :
  (∀ st a, cursor_clear height st → cursor_clear height (step st a)) →
  ∀ st, cursor_clear height st → cursor_clear height (fold_left step l st).
Proof.
  intros Hstep. induction l as [|a l IH]; intros st Hst; simpl; [done |].
  by apply IH, Hstep.
Qed.

Lemma developer_sorted_clear env (resources : ClusterGroup.t) :
  StronglySorted row_clear (buildDeveloperWidgets env resources).
Proof.
  unfold buildDeveloperWidgets.
  set (st0 := {| Layout.widgets := []; Layout.x := 0; Layout.y := 0;
                 Layout.col := 0 |}).
  assert (cursor_clear 6 st0) as H0 by (split; constructor).
  set (st1 := fold_left (cpuMemStep env 8 6) _ st0).
  assert (cursor_clear 6 st1) as H1.
  { apply fold_clear; [| done]. intros st a Hst. unfold cpuMemStep.
    by apply place_clear. }
  set (st2 := if (0 <? length (ClusterGroup.ecsServices resources))%nat
              then _ else st1).
  assert (cursor_clear 6 st2) as [Hsorted Hpast].
  { subst st2. destruct (0 <? length _)%nat; [| done].
    apply fold_clear.
    - intros st a Hst. unfold tasksStep. by apply place_clear.
    - destruct H1 as [Hs1 Hp1]. split; simpl; [done |].
      eapply Forall_impl; [exact Hp1 |].
      intros a. unfold cursor_past. simpl. lia. }
  destruct (0 <? length (ClusterGroup.albs resources))%nat; [| done].
  destruct (devAlbMetrics _) as [metricsErrors metricsLatency].
  unfold push. apply sorted_clear_snoc.
  - apply sorted_clear_snoc; [done |].
    eapply Forall_impl; [exact Hpast |].
    intros a. unfold cursor_past, row_clear. simpl. lia.
  - apply Forall_app. split.
    + eapply Forall_impl; [exact Hpast |].
      intros a. unfold cursor_past, row_clear. simpl. lia.
    + apply Forall_singleton. unfold row_clear. simpl. lia.
Qed.

Lemma cells_Forall (P : Widget.t → Prop) (cell : string → Z → Z → Widget.t)
    (y0 : Z) (l : list string) :
  (∀ a x y, 0 ≤ x ≤ 16 → y0 ≤ y → P (cell a x y)) →
  ∀ k, Forall P (cells cell y0 k l).
Proof.
  intros Hcell. induction l as [|a l IH]; intros k; simpl; constructor.
  - apply Hcell; Z.div_mod_to_equations; lia.
  - apply IH.
Qed.

(** X15. Neither builder ever lays two widgets over a common grid cell,
    and every widget they return lies within the 24 columns of the grid,
    at non-negative coordinates. *)
Theorem builders_layouts_disjoint env (resources : ClusterGroup.t) :
  disjoint_layout (buildExecutiveWidgets env resources) ∧
  disjoint_layout (buildDeveloperWidgets env resources) ∧
  Forall in_grid (buildExecutiveWidgets env resources) ∧
  Forall in_grid (buildDeveloperWidgets env resources).
Proof.
  pose proof (executive_rects env resources) as [_ Hexec].
  split_and!.
  - intros i j a b Hij Ha Hb.
    apply Hexec in Ha. apply Hexec in Hb. unfold rect in Ha, Hb.
    injection Ha as ? ? ? ?. injection Hb as ? ? ? ?.
    unfold overlap. lia.
  - apply sorted_disjoint_layout, developer_sorted_clear.
  - apply Forall_lookup. intros i w Hw. apply Hexec in Hw.
    unfold rect in Hw. injection Hw as ? ? ? ?. unfold in_grid. lia.
  - rewrite developerLayout_correct. unfold developerLayout.
    rewrite !Forall_app. split_and!.
    + apply cells_Forall. intros a x y Hx Hy. unfold in_grid. simpl. lia.
    + apply cells_Forall. intros a x y Hx Hy. unfold in_grid. simpl.
      Z.div_mod_to_equations. lia.
    + destruct (ClusterGroup.albs resources); [constructor |].
      unfold albPairAt.
      match goal with
      | |- context [Z.eqb ?n 0] => destruct (Z.eqb n 0)
      end;
        (apply Forall_cons; split; [| apply Forall_singleton]);
        unfold in_grid; simpl; Z.div_mod_to_equations; lia.
Qed.

(** X16. Every widget either builder returns has type [metric], view
    [timeSeries], period 60 and the configured region: the value of
    [AWS_REGION] when it is set and non-empty, [us-east-1] otherwise. *)
Theorem builders_stamp_widgets env (resources : ClusterGroup.t) :
  Forall (stamped env) (buildExecutiveWidgets env resources) ∧
  Forall (stamped env) (buildDeveloperWidgets env resources) ∧
  REGION env = match env !! "AWS_REGION" with
               | Some region => if JS.truthy region then region else "us-east-1"
               | None => "us-east-1"
               end.
Proof.
  split_and!.
  - unfold buildExecutiveWidgets, push.
    destruct (ClusterGroup.albs resources), (ClusterGroup.ecsServices resources);
      repeat (constructor; [by unfold stamped |]); constructor.
  - rewrite developerLayout_correct. unfold developerLayout.
    rewrite !Forall_app. split_and!.
    + apply cells_Forall. intros a x y _ _. by unfold stamped.
    + apply cells_Forall. intros a x y _ _. by unfold stamped.
    + destruct (ClusterGroup.albs resources); [constructor |].
      unfold albPairAt.
      apply Forall_cons; split; [by unfold stamped |].
      apply Forall_singleton. by unfold stamped.
  - unfold REGION, JS.or_default. by destruct (env !! "AWS_REGION").
Qed.

(** X17. A builder returns the empty sequence exactly for a cluster with
    neither load balancers nor services; it never fails on one. *)
Theorem builders_empty_iff env (resources : ClusterGroup.t) :
  (buildExecutiveWidgets env resources = [] ↔
   ClusterGroup.albs resources = [] ∧ ClusterGroup.ecsServices resources = []) ∧
  (buildDeveloperWidgets env resources = [] ↔
   ClusterGroup.albs resources = [] ∧ ClusterGroup.ecsServices resources = []).
Proof.
  split.
  - pose proof (executive_rects env resources) as [Hlen _].
    destruct (ClusterGroup.albs resources), (ClusterGroup.ecsServices resources);
      simpl in Hlen.
    + apply nil_length_inv in Hlen. by rewrite Hlen.
    + split; [intros E; by rewrite E in Hlen | by intros [_ ?]].
    + split; [intros E; by rewrite E in Hlen | by intros [? _]].
    + split; [intros E; by rewrite E in Hlen | by intros [? _]].
  - rewrite developerLayout_correct. unfold developerLayout.
    destruct (ClusterGroup.ecsServices resources) as [|s svcs],
             (ClusterGroup.albs resources) as [|a albs]; simpl.
    + done.
    + split; [done | by intros [? _]].
    + split; [done | by intros [_ ?]].
    + split; [done | by intros [? _]].
Qed.

(** ** Runs of the handler *)

Lemma putCommands_app (tr tr' : list Event) :
  putCommands (tr ++ tr') = putCommands tr ++ putCommands tr'.
Proof. apply omap_app. Qed.

Section RunFacts.

Variable env : gmap string string.
Context {Backend : Type}.
Variable tagging_send :
  GetResourcesCommand.t -> Backend -> Completion GetResourcesOutput.t * Backend.
Variable cloudwatch_send :
  PutDashboardCommand.t -> Backend -> Completion unit * Backend.

(** Discovery sends no dashboard command, however it ends. *)
Lemma listLoop_puts_nothing (fuel : nat) (tagKey tagValue : string)
    (out : list ResourceTagMapping.t) (token : option string)
    (w w' : World Backend) (r : Completion (list ResourceTagMapping.t)) :
  listLoop Backend tagging_send fuel tagKey tagValue out token w = Some (r, w') →
  putCommands (trace w') = putCommands (trace w).
Proof.
  revert out token w. induction fuel as [|fuel IH]; intros out token w; [done |].
  simpl. unfold mbind, async_bind, abind, taggingClient_send.
  destruct (tagging_send _ (backend w)) as [[page|e] b]; simpl.
  - destruct (token_truthy (GetResourcesOutput.PaginationToken page)).
    + intros H. apply IH in H. rewrite H. simpl.
      by rewrite putCommands_app, app_nil_r.
    + unfold aret. intros [= <- <-]. simpl.
      by rewrite putCommands_app, app_nil_r.
  - intros [= <- <-]. simpl. by rewrite putCommands_app, app_nil_r.
Qed.

Lemma listTaggedResources_puts_nothing (fuel : nat) (tagKey tagValue : string)
    (w w' : World Backend) (r : Completion (list ResourceTagMapping.t)) :
  listTaggedResources Backend tagging_send fuel tagKey tagValue w = Some (r, w') →
  putCommands (trace w') = putCommands (trace w).
Proof. apply listLoop_puts_nothing. Qed.

Lemma listLoop_fails (tagKey tagValue : string) (token token' : option string)
    (b b1 b2 : Backend) (pages : list GetResourcesOutput.t) (e : Exception) :
  follows tagging_send tagKey tagValue token b pages token' b1 →
  tagging_send (pageRequest tagKey tagValue token') b1 = (Throw e, b2) →
  ∀ (fuel : nat) (out : list ResourceTagMapping.t) (tr : list Event),
    (length pages < fuel)%nat →
    listLoop Backend tagging_send fuel tagKey tagValue out token (mkWorld b tr) =
    Some (Throw e,
          mkWorld b2 (tr ++ map GetResourcesSent
                             (requestsFor tagKey tagValue token pages
                              ++ [pageRequest tagKey tagValue token']))).
Proof.
  intros Hfol Hfail.
  induction Hfol as [token b|token b page b' rest token' b'' Hsend Hgo _ IH];
    intros [|fuel] out tr Hfuel; simpl in Hfuel; try lia.
  - simpl. unfold mbind, async_bind, abind, taggingClient_send. simpl.
    fold (pageRequest tagKey tagValue token). by rewrite Hfail.
  - simpl. unfold mbind, async_bind, abind, taggingClient_send. simpl.
    fold (pageRequest tagKey tagValue token). rewrite Hsend, Hgo.
    rewrite (IH Hfail) by lia. by rewrite <- !app_assoc.
Qed.

(** X18. When the tagging service fails on a page, after any number of
    pages that each carried a token, discovery throws that error without
    retrying, having sent one request per page and the failing one; the
    handler rejects with the same error, and no dashboard is published
    from the pages already fetched. *)
Theorem discovery_failure_aborts_run
    (w : World Backend) (pages : list GetResourcesOutput.t)
    (token' : option string) (b1 b2 : Backend) (e : Exception) (fuel : nat) :
  follows tagging_send (CLUSTER_TAG_KEY env) (TAG_VALUE env) None (backend w)
    pages token' b1 →
  tagging_send (pageRequest (CLUSTER_TAG_KEY env) (TAG_VALUE env) token') b1
    = (Throw e, b2) →
  (length pages < fuel)%nat →
  let w' :=
    mkWorld b2
      (trace w ++ map GetResourcesSent
                    (requestsFor (CLUSTER_TAG_KEY env) (TAG_VALUE env) None pages
                     ++ [pageRequest (CLUSTER_TAG_KEY env) (TAG_VALUE env) token'])) in
  listTaggedResources Backend tagging_send fuel
    (CLUSTER_TAG_KEY env) (TAG_VALUE env) w = Some (Throw e, w') ∧
  handler env Backend tagging_send cloudwatch_send fuel w = Some (Throw e, w') ∧
  putCommands (trace w') = putCommands (trace w).
Proof.
  intros Hfol Hfail Hfuel w'. destruct w as [b tr]. simpl in Hfol.
  assert (listTaggedResources Backend tagging_send fuel
            (CLUSTER_TAG_KEY env) (TAG_VALUE env) (mkWorld b tr)
          = Some (Throw e, w')) as Hlist.
  { unfold listTaggedResources.
    by rewrite (listLoop_fails _ _ None token' b b1 b2 pages e Hfol Hfail). }
  split_and!; [done | |].
  - unfold handler, mbind, async_bind, abind. by rewrite Hlist.
  - by eapply listTaggedResources_puts_nothing.
Qed.

(** X19. The crawl has no bound of its own: against a service whose every
    answer carries a non-empty token it is still running after any number
    of iterations. *)
Theorem discovery_never_ends (tagKey tagValue : string) :
  (∀ cmd b, ∃ page b',
     tagging_send cmd b = (Return page, b') ∧
     token_truthy (GetResourcesOutput.PaginationToken page) = true) →
  ∀ (fuel : nat) (w : World Backend),
    listTaggedResources Backend tagging_send fuel tagKey tagValue w = None.
Proof.
  intros Hmore fuel. unfold listTaggedResources.
  generalize (@nil ResourceTagMapping.t) (@None string).
  induction fuel as [|fuel IH]; intros out token w; [done |].
  simpl. unfold mbind, async_bind, abind, taggingClient_send.
  destruct (Hmore (pageRequest tagKey tagValue token) (backend w))
    as (page & b' & Hsend & Hgo).
  fold (pageRequest tagKey tagValue token). rewrite Hsend. simpl.
  rewrite Hgo. apply IH.
Qed.

Lemma clusterLoop_succeeds (clusters : Obj.t) (names : list string)
    (w : World Backend) :
  (∀ cmd b, ∃ b', cloudwatch_send cmd b = (Return tt, b')) →
  (∀ k, k ∈ names → ∃ g, Obj.get clusters k = Obj.Own g) →
  ∃ w', clusterLoop env Backend cloudwatch_send clusters names w
          = Some (Return tt, w') ∧
        putCommands (trace w')
          = putCommands (trace w) ++ flat_map (publishCommands env clusters) names.
Proof.
  intros Hok. revert w. induction names as [|k names IH]; intros w Hown; simpl.
  - exists w. by rewrite app_nil_r.
  - destruct (Hown k) as [g Hg]; [left |].
    unfold mbind, async_bind, abind, clusterStep. rewrite Hg.
    unfold mbind, async_bind, abind. rewrite !putDashboard_run. simpl.
    destruct (Hok {| PutDashboardCommand.DashboardName :=
                       DASHBOARD_EXEC_PREFIX env +:+ k;
                     PutDashboardCommand.DashboardBody :=
                       buildExecutiveWidgets env g |} (backend w)) as [b1 ->].
    rewrite putDashboard_run. simpl.
    destruct (Hok {| PutDashboardCommand.DashboardName :=
                       DASHBOARD_DEV_PREFIX env +:+ k;
                     PutDashboardCommand.DashboardBody :=
                       buildDeveloperWidgets env g |} b1) as [b2 ->].
    unfold console_log, emit. simpl.
    destruct (IH (mkWorld b2
                    (((trace w ++
                       [PutDashboardSent
                          {| PutDashboardCommand.DashboardName :=
                               DASHBOARD_EXEC_PREFIX env +:+ k;
                             PutDashboardCommand.DashboardBody :=
                               buildExecutiveWidgets env g |};
                        ConsoleLog ("Updated dashboard: " +:+
                                    (DASHBOARD_EXEC_PREFIX env +:+ k))]) ++
                      [PutDashboardSent
                         {| PutDashboardCommand.DashboardName :=
                              DASHBOARD_DEV_PREFIX env +:+ k;
                            PutDashboardCommand.DashboardBody :=
                              buildDeveloperWidgets env g |};
                       ConsoleLog ("Updated dashboard: " +:+
                                   (DASHBOARD_DEV_PREFIX env +:+ k))]) ++
                     [ConsoleLog ("Dashboards updated for cluster: " +:+ k)])))
      as (w' & Hrun & Hput).
    { intros k' Hk'. apply Hown. by right. }
    exists w'. split; [done |].
    rewrite Hput. simpl. rewrite !putCommands_app. simpl.
    unfold publishCommands at 2. rewrite Hg.
    by rewrite !app_nil_r, <- !app_assoc.
Qed.

(** X20. When discovery and grouping return and the dashboard service
    accepts every command, the handler returns status 200 with the cluster
    names of [Object.keys], and it has published, for each of those names
    in that order, the executive dashboard and then the developer
    dashboard, named by prefix and cluster name and holding the widgets
    the builders return for the cluster's bucket; nothing else is
    published. *)
Theorem handler_publishes_every_cluster
    (fuel : nat) (w w0 : World Backend)
    (mappings : list ResourceTagMapping.t) (clusters : Obj.t) :
  listTaggedResources Backend tagging_send fuel
    (CLUSTER_TAG_KEY env) (TAG_VALUE env) w = Some (Return mappings, w0) →
  groupByCluster mappings (CLUSTER_TAG_KEY env) = Return clusters →
  (∀ cmd b, ∃ b', cloudwatch_send cmd b = (Return tt, b')) →
  ∃ w',
    handler env Backend tagging_send cloudwatch_send fuel w
      = Some (Return {| Response.statusCode := 200;
                        Response.body := Obj.keys clusters |}, w') ∧
    putCommands (trace w')
      = putCommands (trace w)
        ++ flat_map (publishCommands env clusters) (Obj.keys clusters).
Proof.
  intros Hlist Hgroup Hok.
  destruct (clusterLoop_succeeds clusters (Obj.keys clusters) w0 Hok)
    as (w' & Hrun & Hput).
  { intros k. by apply (keys_read_buckets mappings (CLUSTER_TAG_KEY env)). }
  exists w'. split.
  - unfold handler, mbind, async_bind, abind, sync.
    by rewrite Hlist, Hgroup, Hrun.
  - rewrite Hput. f_equal.
    by eapply listTaggedResources_puts_nothing.
Qed.

(** X21. When grouping throws (a service or load balancer tagged with an
    inherited property name as its cluster), the handler rejects with that
    TypeError right after discovery: no dashboard is published for any
    cluster, the well-tagged ones included. *)
Theorem grouping_failure_aborts_run
    (fuel : nat) (w w0 : World Backend)
    (mappings : list ResourceTagMapping.t) :
  listTaggedResources Backend tagging_send fuel
    (CLUSTER_TAG_KEY env) (TAG_VALUE env) w = Some (Return mappings, w0) →
  poisoned (CLUSTER_TAG_KEY env) mappings →
  handler env Backend tagging_send cloudwatch_send fuel w
    = Some (Throw push_undefined, w0) ∧
  putCommands (trace w0) = putCommands (trace w).
Proof.
  intros Hlist Hp. split.
  - pose proof (groupByCluster_spec mappings (CLUSTER_TAG_KEY env)) as Hs.
    unfold handler, mbind, async_bind, abind, sync. rewrite Hlist.
    destruct (groupByCluster mappings (CLUSTER_TAG_KEY env)) as [c|e].
    + by destruct Hs as [_ Hnp].
    + by destruct Hs as [-> _].
  - by eapply listTaggedResources_puts_nothing.
Qed.

End RunFacts.

Lemma discovery_failure_aborts_run_witness :
  let w' :=
    mkWorld tt
      ([] ++ map GetResourcesSent
               (requestsFor (CLUSTER_TAG_KEY ∅) (TAG_VALUE ∅) None
                  [ {| GetResourcesOutput.ResourceTagMappingList :=
                         Some [teamTagged svc_api "NodeJS"];
                       GetResourcesOutput.PaginationToken := Some "t1" |} ]
                ++ [pageRequest (CLUSTER_TAG_KEY ∅) (TAG_VALUE ∅) (Some "t1")])) in
  listTaggedResources unit failsOnSecondPage 2
    (CLUSTER_TAG_KEY ∅) (TAG_VALUE ∅) (mkWorld tt [])
    = Some (Throw (ServiceException "ThrottledException"), w') ∧
  handler ∅ unit failsOnSecondPage acceptAll 2 (mkWorld tt [])
    = Some (Throw (ServiceException "ThrottledException"), w') ∧
  putCommands (trace w') = putCommands [].
Proof.
  apply (discovery_failure_aborts_run ∅ failsOnSecondPage acceptAll
           (mkWorld tt [])
           [ {| GetResourcesOutput.ResourceTagMappingList :=
                  Some [teamTagged svc_api "NodeJS"];
                GetResourcesOutput.PaginationToken := Some "t1" |} ]
           (Some "t1") tt tt (ServiceException "ThrottledException") 2).
  - eapply follows_cons; [reflexivity | reflexivity | apply follows_nil].
  - reflexivity.
  - simpl. lia.
Defined.

Lemma discovery_never_ends_witness :
  listTaggedResources unit endlessPages 25 "Team" "NodeJS" (mkWorld tt []) = None.
Proof.
  apply (discovery_never_ends endlessPages "Team" "NodeJS").
  intros cmd b. eexists _, _. split; reflexivity.
Defined.

Lemma handler_publishes_every_cluster_witness :
  ∃ w',
    handler ∅ unit twoTeams acceptAll 1 (mkWorld tt [])
      = Some (Return {| Response.statusCode := 200;
                        Response.body := Obj.keys groupedTwoTeams |}, w') ∧
    putCommands (trace w')
      = putCommands []
        ++ flat_map (publishCommands ∅ groupedTwoTeams) (Obj.keys groupedTwoTeams).
Proof.
  apply (handler_publishes_every_cluster ∅ twoTeams acceptAll 1
           (mkWorld tt []) discoveredWorld
           [teamTagged svc_api "a"; teamTagged alb_web "b"] groupedTwoTeams).
  - reflexivity.
  - vm_compute. reflexivity.
  - intros cmd b. by exists b.
Defined.

Lemma grouping_failure_aborts_run_witness :
  handler ∅ unit poisonedTeam acceptAll 1 (mkWorld tt [])
    = Some (Throw push_undefined, discoveredWorld) ∧
  putCommands (trace discoveredWorld) = putCommands [].
Proof.
  apply (grouping_failure_aborts_run ∅ poisonedTeam acceptAll 1
           (mkWorld tt []) discoveredWorld
           [teamTagged alb_web "web"; teamTagged svc_api "toString"]).
  - reflexivity.
  - exists (teamTagged svc_api "toString"), svc_api.
    split_and!; [| reflexivity | reflexivity | reflexivity].
    apply list_elem_of_further, list_elem_of_here.
Defined.

(** ** Tag resolution *)

Lemma clusterOf_resolved key (m : ResourceTagMapping.t) :
  clusterOf key m = resolvedCluster key m.
Proof.
  unfold clusterOf, resolvedCluster, clusterTagValue, JS.or_default.
  destruct (ResourceTagMapping.Tags m) as [tags|]; simpl; [| done].
  by destruct (List.find _ tags).
Qed.

(** X22. A mapping that carries an identifier is grouped under the value
    of its first tag whose key is the cluster tag key, and under [unknown]
    when it has no tag list, no such tag, or an empty value there: the
    bucket of that name exists and holds the identifier in the list its
    kind selects. (The name must not be an inherited property name.) *)
Theorem grouped_under_resolved_cluster
    (ms : list ResourceTagMapping.t) (clusterTagKey : string) (c : Obj.t)
    (m : ResourceTagMapping.t) (arn : string) :
  groupByCluster ms clusterTagKey = Return c →
  m ∈ ms →
  arnOf m = Some arn →
  Obj.inherited (resolvedCluster clusterTagKey m) = false →
  ∃ g, Obj.get c (resolvedCluster clusterTagKey m) = Obj.Own g ∧
       (isEcsService arn = true → arn ∈ ClusterGroup.ecsServices g) ∧
       (isAlbOnly arn = true → arn ∈ ClusterGroup.albs g).
Proof.
  intros Hret Hin Harn Hinh. rewrite <- clusterOf_resolved in *.
  destruct (grouped_member ms clusterTagKey c m arn Hret Hin Harn Hinh)
    as (g & Hg & Hs & Ha).
  exists g. split; [| done]. unfold Obj.get. by rewrite Hg.
Qed.

Lemma grouped_under_resolved_cluster_witness :
  ∃ g, Obj.get groupedEmptyTagged (resolvedCluster "Cluster" emptyTagged)
       = Obj.Own g ∧
       (isEcsService svc_api = true → svc_api ∈ ClusterGroup.ecsServices g) ∧
       (isAlbOnly svc_api = true → svc_api ∈ ClusterGroup.albs g).
Proof.
  apply (grouped_under_resolved_cluster [emptyTagged] "Cluster"
           groupedEmptyTagged emptyTagged svc_api).
  - vm_compute. reflexivity.
  - apply list_elem_of_here.
  - reflexivity.
  - reflexivity.
Defined.

(** ** One tag key for filtering and for grouping *)

Lemma dedup_constant (v : string) (l : list string) :
  Forall (fun k => k = v) l → dedup l = [] ∨ dedup l = [v].
Proof.
  induction 1 as [|k l -> _ IH]; simpl; [by left |]. right.
  destruct IH as [-> | ->]; simpl; [done |]. by rewrite String.eqb_refl.
Qed.

Lemma single_cluster_keys (ms : list ResourceTagMapping.t) key (v : string)
    (c : Obj.t) :
  (∀ m, m ∈ ms → kept m = true → resolvedCluster key m = v) →
  groupByCluster ms key = Return c →
  Obj.keys c = [] ∨ Obj.keys c = [v].
Proof.
  intros Hall Hret.
  pose proof (keys_Permutation c) as Hperm.
  rewrite (groupByCluster_order ms key c Hret) in Hperm.
  destruct (dedup_constant v (omap (bucketName key) ms)) as [E | E].
  - apply Forall_forall. intros k Hk.
    apply list_elem_of_omap in Hk as (m & Hin & Hm).
    unfold bucketName in Hm.
    destruct (kept m) eqn:Hkept; [| done].
    destruct (negb (Obj.inherited (clusterOf key m))); [| done].
    simpl in Hm. injection Hm as <-.
    rewrite clusterOf_resolved. by apply Hall.
  - left. rewrite E in Hperm. by apply Permutation_nil_r.
  - right. rewrite E in Hperm. by apply Permutation_singleton_r.
Qed.

(** X23. Mappings whose tags all resolve to one cluster name are grouped
    into at most one cluster, of that name. *)
Theorem grouping_single_cluster (ms : list ResourceTagMapping.t)
    (clusterTagKey : string) (v : string) (c : Obj.t) :
  (∀ m, m ∈ ms → kept m = true → resolvedCluster clusterTagKey m = v) →
  groupByCluster ms clusterTagKey = Return c →
  (Obj.keys c = [] ∨ Obj.keys c = [v]) ∧
  ∀ k g, Obj.get c k = Obj.Own g → k = v.
Proof.
  intros Hall Hret. split; [by apply (single_cluster_keys ms clusterTagKey) |].
  intros k g Hget.
  assert (k ∈ Obj.keys c) as Hk.
  { apply (groupByCluster_keys ms clusterTagKey c k Hret), elem_of_dom.
    by apply (get_Own c k g). }
  destruct (single_cluster_keys ms clusterTagKey v c Hall Hret) as [E | E];
    rewrite E in Hk.
  - by apply elem_of_nil in Hk.
  - by apply list_elem_of_singleton in Hk.
Qed.

Lemma grouping_single_cluster_witness :
  (Obj.keys groupedNodeJS = [] ∨ Obj.keys groupedNodeJS = ["NodeJS"]) ∧
  ∀ k g, Obj.get groupedNodeJS k = Obj.Own g → k = "NodeJS".
Proof.
  apply (grouping_single_cluster
           [teamTagged svc_api "NodeJS"; teamTagged alb_web "NodeJS"] "Team").
  - intros m Hm _.
    apply elem_of_cons in Hm as [-> | Hm]; [reflexivity |].
    apply list_elem_of_singleton in Hm as ->. reflexivity.
  - vm_compute. reflexivity.
Defined.

Section OneKey.

Variable env : gmap string string.
Context {Backend : Type}.
Variable tagging_send :
  GetResourcesCommand.t -> Backend -> Completion GetResourcesOutput.t * Backend.
Variable cloudwatch_send :
  PutDashboardCommand.t -> Backend -> Completion unit * Backend.

(** X24. The handler filters discovery and groups by the same tag key. So
    when discovery returns, the tagging service honoured the filter (every
    mapping it returned resolves, under that key, to the filtered value)
    and the filtered value is not a property name the [clusters] object
    inherits, grouping returns and the whole run yields at most one
    cluster, named by the filtered value: the handler returns status 200
    with no name or with that one name, and publishes nothing or exactly
    that cluster's executive and developer dashboards. *)
Theorem handler_sees_one_cluster
    (fuel : nat) (w w0 : World Backend)
    (mappings : list ResourceTagMapping.t) :
  listTaggedResources Backend tagging_send fuel
    (CLUSTER_TAG_KEY env) (TAG_VALUE env) w = Some (Return mappings, w0) →
  (∀ m, m ∈ mappings → kept m = true →
        resolvedCluster (CLUSTER_TAG_KEY env) m = TAG_VALUE env) →
  Obj.inherited (TAG_VALUE env) = false →
  (∀ cmd b, ∃ b', cloudwatch_send cmd b = (Return tt, b')) →
  ∃ (clusters : Obj.t) (body : list string) (w' : World Backend),
    groupByCluster mappings (CLUSTER_TAG_KEY env) = Return clusters ∧
    handler env Backend tagging_send cloudwatch_send fuel w
      = Some (Return {| Response.statusCode := 200; Response.body := body |}, w') ∧
    ((body = [] ∧ putCommands (trace w') = putCommands (trace w)) ∨
     (body = [TAG_VALUE env] ∧
      putCommands (trace w')
        = putCommands (trace w)
          ++ publishCommands env clusters (TAG_VALUE env))).
Proof.
  intros Hlist Hall Hown Hok.
  pose proof (groupByCluster_spec mappings (CLUSTER_TAG_KEY env)) as Hspec.
  destruct (groupByCluster mappings (CLUSTER_TAG_KEY env)) as [clusters|e]
    eqn:Hgroup.
  2:{ destruct Hspec as [_ (m & arn & Hin & Harn & Hinh & _)].
      rewrite clusterOf_resolved, (Hall m Hin), Hown in Hinh; [done |].
      unfold kept. by rewrite Harn. }
  destruct (clusterLoop_succeeds env cloudwatch_send clusters
              (Obj.keys clusters) w0 Hok) as (w' & Hrun & Hput).
  { intros k. by apply (keys_read_buckets mappings (CLUSTER_TAG_KEY env)). }
  exists clusters, (Obj.keys clusters), w'. split; [done |]. split.
  - unfold handler, mbind, async_bind, abind, sync.
    by rewrite Hlist, Hgroup, Hrun.
  - rewrite Hput.
    rewrite (listTaggedResources_puts_nothing tagging_send fuel _ _ w w0 _ Hlist).
    destruct (single_cluster_keys mappings (CLUSTER_TAG_KEY env) (TAG_VALUE env)
                clusters Hall Hgroup) as [E | E]; rewrite E; simpl.
    + left. by rewrite app_nil_r.
    + right. by rewrite app_nil_r.
Qed.

End OneKey.

Lemma handler_sees_one_cluster_witness :
  ∃ (clusters : Obj.t) (body : list string) (w' : World unit),
    groupByCluster [teamTagged svc_api "NodeJS"; teamTagged alb_web "NodeJS"]
      (CLUSTER_TAG_KEY ∅) = Return clusters ∧
    handler ∅ unit honestPages acceptAll 1 (mkWorld tt [])
      = Some (Return {| Response.statusCode := 200; Response.body := body |}, w') ∧
    ((body = [] ∧ putCommands (trace w') = putCommands []) ∨
     (body = [TAG_VALUE ∅] ∧
      putCommands (trace w')
        = putCommands [] ++ publishCommands ∅ clusters (TAG_VALUE ∅))).
Proof.
  apply (handler_sees_one_cluster ∅ honestPages acceptAll 1
           (mkWorld tt []) discoveredWorld
           [teamTagged svc_api "NodeJS"; teamTagged alb_web "NodeJS"]).
  - reflexivity.
  - intros m Hm _.
    apply elem_of_cons in Hm as [-> | Hm]; [reflexivity |].
    apply list_elem_of_singleton in Hm as ->. reflexivity.
  - reflexivity.
  - intros cmd b. by exists b.
Defined.
